(** * MixChannels_NEON: the NEON channel mixer of modplayer

    A shallow embedding of [src/mixer_neon.c].  The C function works on two
    caller-owned buffers through raw pointers, so the embedding threads a
    small machine state (the two buffers and the log of element accesses)
    through an error monad; a load or store past the end of a buffer is
    undefined behaviour in C and is a [Fault] here.  The NEON intrinsics are
    pure functions on lane vectors (lists of [Z], one entry per lane). *)

From Stdlib Require Import ZArith Lia.
From stdpp Require Import base list.

Local Open Scope Z_scope.

(** ** Lane arithmetic *)

Module Lane.

(** The value of the low [w] bits read in two's complement. *)
Definition signed (w x : Z) : Z := (x + 2 ^ (w - 1)) mod 2 ^ w - 2 ^ (w - 1).

Definition INT16_MIN : Z := -32768.
Definition INT16_MAX : Z := 32767.

(** Clamp to the int16_t range: what the saturating instructions do when
    the exact result does not fit the lane. *)
Definition sat16 (x : Z) : Z :=
  if x <? INT16_MIN then INT16_MIN
  else if INT16_MAX <? x then INT16_MAX
  else x.

Definition is_int8 (x : Z) : Prop := -128 <= x <= 127.
Definition is_uint8 (x : Z) : Prop := 0 <= x <= 255.
Definition is_int16 (x : Z) : Prop := INT16_MIN <= x <= INT16_MAX.

End Lane.

(** ** The arm_neon.h intrinsics used by the mixer *)

(** [int16x8x2_t]: a pair of 8-lane vectors, [val[0]] and [val[1]]. *)
Record int16x8x2_t := { val_0 : list Z; val_1 : list Z }.

(** [vdup_n_u8]: the byte repeated into the 8 lanes of a 64-bit register. *)
Definition vdup_n_u8 (v : Z) : list Z := replicate 8 v.

(** [vmovl_u8]: each u8 lane zero-extended to a u16 lane (AD becomes 00AD). *)
Definition vmovl_u8 (a : list Z) : list Z := (fun x => Z.land x 255) <$> a.

(** [vreinterpretq_s16_u16]: the same 16 bits of each lane, read as s16. *)
Definition vreinterpretq_s16_u16 (a : list Z) : list Z := Lane.signed 16 <$> a.

(** [vmovl_s8]: each s8 lane sign-extended to an s16 lane. *)
Definition vmovl_s8 (a : list Z) : list Z := Lane.signed 8 <$> a.

(** [vmulq_s16]: lane-wise product, the low 16 bits kept. *)
Definition vmulq_s16 (a b : list Z) : list Z :=
  zip_with (fun x y => Lane.signed 16 (x * y)) a b.

(** [vshrq_n_s16]: lane-wise arithmetic shift right by a constant. *)
Definition vshrq_n_s16 (a : list Z) (n : Z) : list Z :=
  (fun x => Z.shiftr x n) <$> a.

(** [vqaddq_s16]: lane-wise saturating addition. *)
Definition vqaddq_s16 (a b : list Z) : list Z :=
  zip_with (fun x y => Lane.sat16 (x + y)) a b.

(** ** Memory: the two buffers and the access log *)

Inductive access : Type :=
| ReadData (i : nat)
| ReadOut (i : nat)
| WriteOut (i : nat).

Record machine := {
  m_out : list Z;       (* int16_t* out  *)
  m_data : list Z;      (* int8_t*  data *)
  m_trace : list access (* element accesses performed so far, oldest first *)
}.

(** A run either completes, or stops at the first access that falls outside
    its buffer ([Fault] carries that access and the machine it was attempted
    in).  The C function returns [void]: it has no other way to end. *)
Inductive outcome (A : Type) : Type :=
| Done (a : A) (m : machine)
| Fault (acc : access) (m : machine).
Arguments Done {A} a m.
Arguments Fault {A} acc m.

Definition M (A : Type) : Type := machine -> outcome A.

Definition ret {A} (a : A) : M A := fun m => Done a m.

Definition bind {A B} (c : M A) (k : A -> M B) : M B :=
  fun m => match c m with
           | Done a m' => k a m'
           | Fault acc m' => Fault acc m'
           end.

Notation "'let*' x ':=' c 'in' k" := (bind c (fun x => k))
  (at level 10, x name, c at level 100, k at level 200).

Definition log (a : access) (m : machine) : machine :=
  {| m_out := m_out m; m_data := m_data m; m_trace := m_trace m ++ [a] |}.

Definition load_out (i : nat) : M Z :=
  fun m => match m_out m !! i with
           | Some v => Done v (log (ReadOut i) m)
           | None => Fault (ReadOut i) m
           end.

Definition load_data (i : nat) : M Z :=
  fun m => match m_data m !! i with
           | Some v => Done v (log (ReadData i) m)
           | None => Fault (ReadData i) m
           end.

Definition store_out (i : nat) (v : Z) : M unit :=
  fun m => match m_out m !! i with
           | Some _ =>
               Done tt (log (WriteOut i)
                          {| m_out := <[i := v]> (m_out m);
                             m_data := m_data m;
                             m_trace := m_trace m |})
           | None => Fault (WriteOut i) m
           end.

(** [n] consecutive elements starting at [base], lowest address first. *)
Fixpoint load_run (ld : nat -> M Z) (base n : nat) : M (list Z) :=
  match n with
  | O => ret []
  | S n' =>
      let* v := ld base in
      let* vs := load_run ld (S base) n' in
      ret (v :: vs)
  end.

Fixpoint store_run (base : nat) (vs : list Z) : M unit :=
  match vs with
  | [] => ret tt
  | v :: vs' =>
      let* _ := store_out base v in
      store_run (S base) vs'
  end.

(** Even-indexed elements to the first vector, odd-indexed to the second. *)
Fixpoint deinterleave (l : list Z) : int16x8x2_t :=
  match l with
  | a :: b :: l' =>
      let r := deinterleave l' in
      {| val_0 := a :: val_0 r; val_1 := b :: val_1 r |}
  | _ => {| val_0 := []; val_1 := [] |}
  end.

Fixpoint interleave (a b : list Z) : list Z :=
  match a, b with
  | x :: a', y :: b' => x :: y :: interleave a' b'
  | _, _ => []
  end.

(** [vld2q_s16(out)]: 16 int16_t loaded from [out], de-interleaved. *)
Definition vld2q_s16 : M int16x8x2_t :=
  let* xs := load_run load_out 0 16 in
  ret (deinterleave xs).

(** [vld1_s8(data)]: 8 int8_t loaded from [data]. *)
Definition vld1_s8 : M (list Z) := load_run load_data 0 8.

(** [vst2q_s16(out, r)]: the two vectors interleaved and stored to [out]. *)
Definition vst2q_s16 (r : int16x8x2_t) : M unit :=
  store_run 0 (interleave (val_0 r) (val_1 r)).

(** ** The mixer *)

Definition MixChannels_NEON (lvol rvol : Z) (len : Z) : M unit :=
  let scale_factor_l_16 := vmovl_u8 (vdup_n_u8 lvol) in
  let scale_factor_r_16 := vmovl_u8 (vdup_n_u8 rvol) in
  let scale_factor_16_l_s := vreinterpretq_s16_u16 scale_factor_l_16 in
  let scale_factor_16_r_s := vreinterpretq_s16_u16 scale_factor_r_16 in
  let* interleaved_audio := vld2q_s16 in
  let* data_load := vld1_s8 in
  let data_unpacked := vmovl_s8 data_load in
  let mul_l := vmulq_s16 data_unpacked scale_factor_16_l_s in
  let mul_r := vmulq_s16 data_unpacked scale_factor_16_r_s in
  let mixed_l := vshrq_n_s16 mul_l 8 in
  let mixed_r := vshrq_n_s16 mul_r 8 in
  let result :=
    {| val_0 := vqaddq_s16 mixed_l (val_0 interleaved_audio);
       val_1 := vqaddq_s16 mixed_r (val_1 interleaved_audio) |} in
  vst2q_s16 result.

(** A call [MixChannels_NEON(out, data, lvol, rvol, len)] on fresh buffers. *)
Definition call (out data : list Z) (lvol rvol len : Z) : outcome unit :=
  MixChannels_NEON lvol rvol len
    {| m_out := out; m_data := data; m_trace := [] |}.

(** Every access the run made or tried to make, oldest first. *)
Definition attempted {A} (r : outcome A) : list access :=
  match r with
  | Done _ m => m_trace m
  | Fault acc m => m_trace m ++ [acc]
  end.

(** The output buffer the run leaves behind. *)
Definition final_out {A} (r : outcome A) : list Z :=
  match r with
  | Done _ m => m_out m
  | Fault _ m => m_out m
  end.

Definition completes {A} (r : outcome A) : bool :=
  match r with
  | Done _ _ => true
  | Fault _ _ => false
  end.

(** One channel's contribution: the unpacked data times the scale factor
    built from [vol] ([mul_l], [mul_r]), shifted down by the fixed-point
    base ([mixed_l], [mixed_r]). *)
Definition product_lanes (vol : Z) (d : list Z) : list Z :=
  vmulq_s16 (vmovl_s8 d) (vreinterpretq_s16_u16 (vmovl_u8 (vdup_n_u8 vol))).

Definition scaled_lanes (vol : Z) (d : list Z) : list Z :=
  vshrq_n_s16 (product_lanes vol d) 8.

(** What one channel's lanes become: the contribution added, saturating, to
    the lanes [acc] loaded from the output buffer. *)
Definition mix_lanes (vol : Z) (d acc : list Z) : list Z :=
  vqaddq_s16 (scaled_lanes vol d) acc.

(** The same for a single lane. *)
Definition product_lane (vol s : Z) : Z :=
  Lane.signed 16 (Lane.signed 8 s * Lane.signed 16 (Z.land vol 255)).

Definition scaled_lane (vol s : Z) : Z := Z.shiftr (product_lane vol s) 8.

Definition mix_lane (vol s acc : Z) : Z := Lane.sat16 (scaled_lane vol s + acc).

(** ** The reference path of the specification *)

Module Spec.

Inductive MixError : Type := LengthMismatch | UnsupportedWidth.

(** Modelled from the spec: ScaleAndShift (section 4.3), the product taken
    in unbounded precision and then rescaled by the fixed-point base. *)
Definition ScaleAndShift (s f : Z) : Z := Z.shiftr (s * f) 8.

(** Modelled from the spec: SaturatingAccumulator (section 4.4), the sum
    clamped to the 16-bit signed range. *)
Definition SaturatingAccumulator (scaled existing : Z) : Z :=
  Z.max (-32768) (Z.min 32767 (existing + scaled)).

(** Modelled from the spec: ScalarFallback (section 4.6), which the source
    tree does not contain: sections 4.1 to 4.5 applied one sample at a
    time, the left contribution into the even output sample of the frame
    and the right one into the odd sample, everything else kept. *)
Fixpoint ScalarFallback (source output : list Z) (leftVolume rightVolume : Z)
  : list Z :=
  match source, output with
  | s :: source', l :: r :: output' =>
      SaturatingAccumulator (ScaleAndShift s leftVolume) l
        :: SaturatingAccumulator (ScaleAndShift s rightVolume) r
        :: ScalarFallback source' output' leftVolume rightVolume
  | _, _ => output
  end.

(** Modelled from the spec: the [mixChannels] operation of section 6 with
    the validation of section 7 in front of the per-sample path. *)
Definition mixChannels (output source : list Z)
    (leftVolume rightVolume : Z) (len : Z) : MixError + list Z :=
  if bool_decide (Z.of_nat (length source) = len
                  /\ 2 * len <= Z.of_nat (length output))
  then inr (ScalarFallback source output leftVolume rightVolume)
  else inl LengthMismatch.

End Spec.

(** A valid input tuple in the sense of sections 3 and 6 of the spec. *)
Definition valid_input (out data : list Z) (lvol rvol len : Z) : Prop :=
  Z.of_nat (length data) = len
  /\ 2 * len <= Z.of_nat (length out)
  /\ Forall Lane.is_int8 data
  /\ Forall Lane.is_int16 out
  /\ Lane.is_uint8 lvol
  /\ Lane.is_uint8 rvol.

(** ** Derived notions used by the statements *)

(** The machine after the accesses [l] have been logged. *)
Definition logs (l : list access) (m : machine) : machine :=
  {| m_out := m_out m; m_data := m_data m; m_trace := m_trace m ++ l |}.

(** The accesses of a complete call, in order: the two-vector load of the
    output block, the load of the data block, the two-vector store. *)
Definition block_trace : list access :=
  (ReadOut <$> seq 0 16) ++ (ReadData <$> seq 0 8) ++ (WriteOut <$> seq 0 16).

(** The 16 output values a complete call stores. *)
Definition mix_block (out16 data8 : list Z) (lvol rvol : Z) : list Z :=
  interleave (mix_lanes lvol data8 (val_0 (deinterleave out16)))
             (mix_lanes rvol data8 (val_1 (deinterleave out16))).

(** The output buffer after a complete call. *)
Definition mixed (out data : list Z) (lvol rvol : Z) : list Z :=
  mix_block (take 16 out) (take 8 data) lvol rvol ++ drop 16 out.

(** The bounds a caller declares with [length = N]: [N] source samples and
    [2 * N] output samples. *)
Definition within_declared (N : nat) (a : access) : Prop :=
  match a with
  | ReadData i => (i < N)%nat
  | ReadOut i => (i < 2 * N)%nat
  | WriteOut i => (i < 2 * N)%nat
  end.

(** The block the function touches: 8 source samples, 16 output samples. *)
Definition in_block (a : access) : Prop := within_declared 8 a.

#[global] Instance within_declared_dec N a : Decision (within_declared N a).
Proof. destruct a; simpl; apply _. Defined.

#[global] Instance in_block_dec a : Decision (in_block a).
Proof. unfold in_block. apply _. Defined.

#[global] Instance is_int8_dec x : Decision (Lane.is_int8 x).
Proof. unfold Lane.is_int8. apply _. Defined.

#[global] Instance is_uint8_dec x : Decision (Lane.is_uint8 x).
Proof. unfold Lane.is_uint8. apply _. Defined.

#[global] Instance is_int16_dec x : Decision (Lane.is_int16 x).
Proof. unfold Lane.is_int16. apply _. Defined.

(** What a validate-then-act rejection would look like from outside: the
    call does not complete, no buffer element was touched or reached for,
    and the output buffer is the caller's [out]. *)
Definition rejected_before_access {A} (out : list Z) (r : outcome A) : Prop :=
  completes r = false /\ attempted r = [] /\ final_out r = out.

(** The vector path and the reference path end with the same output. *)
Definition agrees_with_scalar (out data : list Z) (lvol rvol len : Z) : Prop :=
  exists m, call out data lvol rvol len = Done tt m
            /\ Spec.mixChannels out data lvol rvol len = inr (m_out m).

(** Closed decidable goals are settled by evaluation. *)
Ltac by_decide := apply (bool_decide_unpack _); vm_compute; exact I.

(** ** Lane arithmetic facts *)

Section lane_facts.

Import Lane.

Lemma signed8_small x : is_int8 x -> signed 8 x = x.
Proof.
  unfold is_int8, signed. intros Hx.
  change (2 ^ (8 - 1)) with 128. change (2 ^ 8) with 256.
  rewrite Z.mod_small; lia.
Qed.

Lemma signed16_small x : is_int16 x -> signed 16 x = x.
Proof.
  unfold is_int16, INT16_MIN, INT16_MAX, signed. intros Hx.
  change (2 ^ (16 - 1)) with 32768. change (2 ^ 16) with 65536.
  rewrite Z.mod_small; lia.
Qed.

Lemma land_255_mod v : Z.land v 255 = v mod 256.
Proof. change 255 with (Z.ones 8). by rewrite Z.land_ones by lia. Qed.

Lemma land_255_small v : is_uint8 v -> Z.land v 255 = v.
Proof.
  unfold is_uint8. intros Hv.
  rewrite land_255_mod. apply Z.mod_small. lia.
Qed.

Lemma product_fits s f : is_int8 s -> is_uint8 f -> is_int16 (s * f).
Proof.
  unfold is_int8, is_uint8, is_int16, INT16_MIN, INT16_MAX.
  intros Hs Hf. nia.
Qed.

Lemma sat16_range x : is_int16 (sat16 x).
Proof.
  unfold is_int16, sat16, INT16_MIN, INT16_MAX.
  destruct (Z.ltb_spec x (-32768)); [lia|].
  destruct (Z.ltb_spec 32767 x); lia.
Qed.

Lemma sat16_id x : is_int16 x -> sat16 x = x.
Proof.
  unfold is_int16, sat16, INT16_MIN, INT16_MAX. intros Hx.
  destruct (Z.ltb_spec x (-32768)); [lia|].
  destruct (Z.ltb_spec 32767 x); lia.
Qed.

Lemma sat16_low x : x <= INT16_MIN -> sat16 x = INT16_MIN.
Proof.
  unfold sat16, INT16_MIN, INT16_MAX. intros Hx.
  destruct (Z.ltb_spec x (-32768)); [lia|].
  destruct (Z.ltb_spec 32767 x); lia.
Qed.

Lemma sat16_high x : INT16_MAX <= x -> sat16 x = INT16_MAX.
Proof.
  unfold sat16, INT16_MIN, INT16_MAX. intros Hx.
  destruct (Z.ltb_spec x (-32768)); [lia|].
  destruct (Z.ltb_spec 32767 x); lia.
Qed.

Lemma sat16_max_min x : sat16 x = Z.max (-32768) (Z.min 32767 x).
Proof.
  unfold sat16, INT16_MIN, INT16_MAX.
  destruct (Z.ltb_spec x (-32768)); [lia|].
  destruct (Z.ltb_spec 32767 x); lia.
Qed.

Lemma SaturatingAccumulator_sat16 scaled existing :
  Spec.SaturatingAccumulator scaled existing = sat16 (scaled + existing).
Proof.
  unfold Spec.SaturatingAccumulator, sat16, INT16_MIN, INT16_MAX.
  destruct (Z.ltb_spec (scaled + existing) (-32768)); [lia|].
  destruct (Z.ltb_spec 32767 (scaled + existing)); lia.
Qed.

(** The scale factor the multiply sees is the volume itself. *)
Lemma scale_factor_lane v : is_uint8 v -> signed 16 (Z.land v 255) = v.
Proof.
  intros Hv. rewrite land_255_small by done.
  apply signed16_small. unfold is_uint8 in Hv.
  unfold is_int16, INT16_MIN, INT16_MAX. lia.
Qed.

(** The contribution of one lane, for a sample and a volume of the
    declared types: the exact product, shifted. *)
Lemma product_lane_exact s v :
  is_int8 s -> is_uint8 v -> product_lane v s = s * v.
Proof.
  intros Hs Hv. unfold product_lane.
  rewrite signed8_small, scale_factor_lane by done.
  by rewrite signed16_small by (by apply product_fits).
Qed.

Lemma scaled_lane_exact s v :
  is_int8 s -> is_uint8 v -> scaled_lane v s = Z.shiftr (s * v) 8.
Proof.
  intros Hs Hv. unfold scaled_lane. by rewrite product_lane_exact.
Qed.

Lemma mix_lane_exact v s acc :
  is_int8 s -> is_uint8 v ->
  mix_lane v s acc = sat16 (Z.shiftr (s * v) 8 + acc).
Proof. intros Hs Hv. unfold mix_lane. by rewrite scaled_lane_exact. Qed.

Lemma mix_lane_range v s acc : is_int16 (mix_lane v s acc).
Proof. apply sat16_range. Qed.

Lemma mix_lane_silent s acc : is_int16 acc -> mix_lane 0 s acc = acc.
Proof.
  intros Hacc. unfold mix_lane, scaled_lane, product_lane.
  change (Z.land 0 255) with 0. change (signed 16 0) with 0.
  rewrite Z.mul_0_r. change (signed 16 0) with 0.
  change (Z.shiftr 0 8) with 0. by apply sat16_id.
Qed.

End lane_facts.

(** ** Runs of loads and stores *)

Lemma logs_nil m : logs [] m = m.
Proof. destruct m. unfold logs. simpl. by rewrite app_nil_r. Qed.

Lemma logs_log a l m : logs l (log a m) = logs (a :: l) m.
Proof. unfold logs, log. simpl. by rewrite <- app_assoc. Qed.

Section load_run_facts.

Variable buf : machine -> list Z.
Variable tag : nat -> access.
Variable ld : nat -> M Z.

Hypothesis ld_unfold : forall i m,
  ld i m = match buf m !! i with
           | Some v => Done v (log (tag i) m)
           | None => Fault (tag i) m
           end.
Hypothesis buf_log : forall a m, buf (log a m) = buf m.

(** A run that stays inside the buffer returns the elements it covers. *)
Lemma load_run_ok n : forall base m,
  (base + n <= length (buf m))%nat ->
  load_run ld base n m
  = Done (take n (drop base (buf m))) (logs (tag <$> seq base n) m).
Proof.
  induction n as [|n IH]; intros base m Hlen.
  - simpl. unfold ret. by rewrite logs_nil.
  - simpl. unfold bind at 1. rewrite ld_unfold.
    destruct (lookup_lt_is_Some_2 (buf m) base) as [v Hv]; [lia|].
    rewrite Hv. unfold bind at 1.
    rewrite IH by (rewrite buf_log; lia).
    unfold ret. rewrite buf_log, logs_log.
    by rewrite (drop_S _ _ _ Hv).
Qed.

(** A run that leaves the buffer stops at the first index past its end. *)
Lemma load_run_fault n : forall base m,
  (base <= length (buf m) < base + n)%nat ->
  load_run ld base n m
  = Fault (tag (length (buf m)))
      (logs (tag <$> seq base (length (buf m) - base)) m).
Proof.
  induction n as [|n IH]; intros base m Hlen; [lia|].
  simpl. unfold bind at 1. rewrite ld_unfold.
  destruct (decide (base = length (buf m))) as [->|Hne].
  - rewrite (lookup_ge_None_2 (buf m)) by lia.
    rewrite Nat.sub_diag. simpl. by rewrite logs_nil.
  - destruct (lookup_lt_is_Some_2 (buf m) base) as [v Hv]; [lia|].
    rewrite Hv. unfold bind at 1.
    rewrite IH by (rewrite buf_log; lia).
    rewrite buf_log, logs_log.
    replace (length (buf m) - base)%nat
      with (S (length (buf m) - S base)) by lia.
    done.
Qed.

End load_run_facts.

Lemma load_out_run_ok n base m :
  (base + n <= length (m_out m))%nat ->
  load_run load_out base n m
  = Done (take n (drop base (m_out m))) (logs (ReadOut <$> seq base n) m).
Proof. by apply (load_run_ok m_out ReadOut). Qed.

Lemma load_out_run_fault n base m :
  (base <= length (m_out m) < base + n)%nat ->
  load_run load_out base n m
  = Fault (ReadOut (length (m_out m)))
      (logs (ReadOut <$> seq base (length (m_out m) - base)) m).
Proof. by apply (load_run_fault m_out ReadOut). Qed.

Lemma load_data_run_ok n base m :
  (base + n <= length (m_data m))%nat ->
  load_run load_data base n m
  = Done (take n (drop base (m_data m))) (logs (ReadData <$> seq base n) m).
Proof. by apply (load_run_ok m_data ReadData). Qed.

Lemma load_data_run_fault n base m :
  (base <= length (m_data m) < base + n)%nat ->
  load_run load_data base n m
  = Fault (ReadData (length (m_data m)))
      (logs (ReadData <$> seq base (length (m_data m) - base)) m).
Proof. by apply (load_run_fault m_data ReadData). Qed.

(** A run of stores that stays inside the buffer overwrites exactly the
    elements it covers. *)
Lemma store_run_ok vs : forall base m,
  (base + length vs <= length (m_out m))%nat ->
  store_run base vs m
  = Done tt
      {| m_out := take base (m_out m) ++ vs
                  ++ drop (base + length vs) (m_out m);
         m_data := m_data m;
         m_trace := m_trace m ++ (WriteOut <$> seq base (length vs)) |}.
Proof.
  induction vs as [|v vs IH]; intros base m Hlen.
  - simpl. unfold ret. rewrite Nat.add_0_r, take_drop, app_nil_r.
    by destruct m.
  - simpl in Hlen. simpl store_run. unfold bind, store_out.
    destruct (lookup_lt_is_Some_2 (m_out m) base) as [w Hw]; [lia|].
    rewrite Hw, IH by (simpl; rewrite length_insert; lia).
    simpl. f_equal. f_equal.
    + rewrite (take_S_r _ _ v) by (apply list_lookup_insert_eq; lia).
      rewrite take_insert_ge by lia.
      rewrite drop_insert_lt by lia.
      rewrite <- app_assoc. simpl.
      by replace (S (base + length vs)) with (base + S (length vs))%nat by lia.
    + by rewrite <- app_assoc.
Qed.

(** ** Interleaving *)

Lemma length_deinterleave n : forall l,
  length l = (2 * n)%nat ->
  length (val_0 (deinterleave l)) = n /\ length (val_1 (deinterleave l)) = n.
Proof.
  induction n as [|n IH]; intros l Hl.
  - destruct l; [done|simpl in Hl; lia].
  - destruct l as [|a [|b l]]; try (simpl in Hl; lia).
    destruct (IH l) as [H0 H1]; [simpl in Hl; lia|].
    simpl. by rewrite H0, H1.
Qed.

Lemma deinterleave_lookup i : forall l,
  (2 * i + 1 < length l)%nat ->
  val_0 (deinterleave l) !! i = l !! (2 * i)%nat
  /\ val_1 (deinterleave l) !! i = l !! (2 * i + 1)%nat.
Proof.
  induction i as [|i IH]; intros l Hl.
  - destruct l as [|a [|b l]]; try (simpl in Hl; lia). done.
  - destruct l as [|a [|b l]]; try (simpl in Hl; lia).
    destruct (IH l) as [H0 H1]; [simpl in Hl; lia|].
    replace (2 * S i)%nat with (S (S (2 * i))) by lia.
    replace (S (S (2 * i)) + 1)%nat with (S (S (2 * i + 1))) by lia.
    cbn [deinterleave val_0 val_1 lookup list_lookup]. done.
Qed.

Lemma length_interleave a : forall b,
  length a = length b -> length (interleave a b) = (2 * length a)%nat.
Proof.
  induction a as [|x a IH]; intros [|y b] Hab; try done.
  simpl in *. rewrite IH by lia. lia.
Qed.

Lemma interleave_lookup i : forall a b x y,
  a !! i = Some x -> b !! i = Some y ->
  interleave a b !! (2 * i)%nat = Some x
  /\ interleave a b !! (2 * i + 1)%nat = Some y.
Proof.
  induction i as [|i IH]; intros [|a0 a] [|b0 b] x y Ha Hb; try done.
  replace (2 * S i)%nat with (S (S (2 * i))) by lia.
  replace (S (S (2 * i)) + 1)%nat with (S (S (2 * i + 1))) by lia.
  cbn [interleave lookup list_lookup]. by apply IH.
Qed.

(** ** One channel's lanes *)

Lemma length_mix_lanes vol d acc :
  length d = 8%nat -> length acc = 8%nat ->
  length (mix_lanes vol d acc) = 8%nat.
Proof.
  intros Hd Hacc. unfold mix_lanes, scaled_lanes, product_lanes, vqaddq_s16,
    vshrq_n_s16, vmulq_s16, vmovl_s8, vreinterpretq_s16_u16, vmovl_u8,
    vdup_n_u8.
  rewrite !length_zip_with, !length_fmap, !length_zip_with, !length_fmap,
    length_replicate.
  lia.
Qed.

Lemma length_product_lanes vol d :
  length (product_lanes vol d) = (length d `min` 8)%nat.
Proof.
  unfold product_lanes, vmulq_s16, vmovl_s8, vreinterpretq_s16_u16, vmovl_u8,
    vdup_n_u8.
  by rewrite length_zip_with, !length_fmap, length_replicate.
Qed.

Lemma product_lanes_lookup vol d i :
  (i < 8)%nat -> product_lanes vol d !! i = product_lane vol <$> d !! i.
Proof.
  intros Hi. unfold product_lanes, vmulq_s16, vmovl_s8,
    vreinterpretq_s16_u16, vmovl_u8, vdup_n_u8.
  rewrite lookup_zip_with, !list_lookup_fmap, lookup_replicate_2 by done.
  by destruct (d !! i).
Qed.

Lemma scaled_lanes_lookup vol d i :
  (i < 8)%nat -> scaled_lanes vol d !! i = scaled_lane vol <$> d !! i.
Proof.
  intros Hi. unfold scaled_lanes, vshrq_n_s16.
  rewrite list_lookup_fmap, product_lanes_lookup by done.
  by destruct (d !! i).
Qed.

(** Up to 8 lanes of data, the vector operations act lane by lane. *)
Lemma product_lanes_fmap vol d :
  (length d <= 8)%nat -> product_lanes vol d = product_lane vol <$> d.
Proof.
  intros Hd. apply list_eq. intros i.
  destruct (decide (i < 8)%nat) as [Hi|Hi].
  - by rewrite product_lanes_lookup, list_lookup_fmap.
  - rewrite !lookup_ge_None_2; [done|rewrite length_fmap; lia|].
    rewrite length_product_lanes. lia.
Qed.

Lemma scaled_lanes_fmap vol d :
  (length d <= 8)%nat -> scaled_lanes vol d = scaled_lane vol <$> d.
Proof.
  intros Hd. unfold scaled_lanes, vshrq_n_s16.
  rewrite product_lanes_fmap by done. by rewrite <- list_fmap_compose.
Qed.

Lemma mix_lanes_lookup vol d acc i s a :
  (i < 8)%nat -> d !! i = Some s -> acc !! i = Some a ->
  mix_lanes vol d acc !! i = Some (mix_lane vol s a).
Proof.
  intros Hi Hd Hacc. unfold mix_lanes, vqaddq_s16.
  by rewrite lookup_zip_with, scaled_lanes_lookup, Hd, Hacc by done.
Qed.

(** ** The call as a whole *)

Lemma length_mix_block out16 data8 lvol rvol :
  length out16 = 16%nat -> length data8 = 8%nat ->
  length (mix_block out16 data8 lvol rvol) = 16%nat.
Proof.
  intros Ho Hd. unfold mix_block.
  destruct (length_deinterleave 8 out16 Ho) as [H0 H1].
  rewrite length_interleave; rewrite !length_mix_lanes; done.
Qed.

(** With a whole block in both buffers the call completes. *)
Lemma call_done out data lvol rvol len :
  (16 <= length out)%nat -> (8 <= length data)%nat ->
  call out data lvol rvol len
  = Done tt {| m_out := mixed out data lvol rvol;
               m_data := data;
               m_trace := block_trace |}.
Proof.
  intros Ho Hd.
  unfold mixed, call, MixChannels_NEON, vld2q_s16, vld1_s8, vst2q_s16.
  cbv beta zeta. unfold bind, ret.
  rewrite load_out_run_ok by (simpl; lia).
  rewrite load_data_run_ok by (simpl; lia).
  rewrite !drop_0.
  change (interleave _ _)
    with (mix_block (take 16 out) (take 8 data) lvol rvol).
  assert (length (mix_block (take 16 out) (take 8 data) lvol rvol) = 16%nat)
    as Hblock by (apply length_mix_block; rewrite length_take; lia).
  rewrite store_run_ok by (cbn [logs m_out]; rewrite Hblock; lia).
  cbn [logs m_out m_data m_trace take app]. rewrite Hblock.
  unfold block_trace. by rewrite <- app_assoc.
Qed.

(** Too short an output buffer: the block load runs off its end. *)
Lemma call_fault_out out data lvol rvol len :
  (length out < 16)%nat ->
  call out data lvol rvol len
  = Fault (ReadOut (length out))
      {| m_out := out; m_data := data;
         m_trace := ReadOut <$> seq 0 (length out) |}.
Proof.
  intros Ho.
  unfold call, MixChannels_NEON, vld2q_s16.
  cbv beta zeta. unfold bind.
  rewrite load_out_run_fault by (simpl; lia).
  cbn [logs m_out m_data m_trace app]. by rewrite Nat.sub_0_r.
Qed.

(** Too short a data buffer: the 8-byte load runs off its end, after the
    output block has been read and before anything is stored. *)
Lemma call_fault_data out data lvol rvol len :
  (16 <= length out)%nat -> (length data < 8)%nat ->
  call out data lvol rvol len
  = Fault (ReadData (length data))
      {| m_out := out; m_data := data;
         m_trace := (ReadOut <$> seq 0 16)
                    ++ (ReadData <$> seq 0 (length data)) |}.
Proof.
  intros Ho Hd.
  unfold call, MixChannels_NEON, vld2q_s16, vld1_s8.
  cbv beta zeta. unfold bind, ret.
  rewrite load_out_run_ok by (simpl; lia).
  rewrite load_data_run_fault by (simpl; lia).
  cbn [logs m_out m_data m_trace app]. by rewrite Nat.sub_0_r.
Qed.

Lemma length_mixed out data lvol rvol :
  (16 <= length out)%nat -> (8 <= length data)%nat ->
  length (mixed out data lvol rvol) = length out.
Proof.
  intros Ho Hd. unfold mixed.
  rewrite length_app, length_mix_block, length_drop
    by (rewrite length_take; lia).
  lia.
Qed.

Lemma mix_block_frame out16 data8 lvol rvol i s l r :
  (i < 8)%nat -> data8 !! i = Some s ->
  out16 !! (2 * i)%nat = Some l -> out16 !! (2 * i + 1)%nat = Some r ->
  mix_block out16 data8 lvol rvol !! (2 * i)%nat = Some (mix_lane lvol s l)
  /\ mix_block out16 data8 lvol rvol !! (2 * i + 1)%nat
     = Some (mix_lane rvol s r).
Proof.
  intros Hi Hs Hl Hr. unfold mix_block.
  destruct (deinterleave_lookup i out16) as [H0 H1];
    [by apply lookup_lt_Some in Hr|].
  rewrite Hl in H0. rewrite Hr in H1.
  apply interleave_lookup; by apply mix_lanes_lookup.
Qed.

(** Frame [i] of the block after the call: each channel's old sample plus
    that channel's contribution of source sample [i], saturated. *)
Lemma mixed_frame out data lvol rvol i s l r :
  (i < 8)%nat -> data !! i = Some s ->
  out !! (2 * i)%nat = Some l -> out !! (2 * i + 1)%nat = Some r ->
  mixed out data lvol rvol !! (2 * i)%nat = Some (mix_lane lvol s l)
  /\ mixed out data lvol rvol !! (2 * i + 1)%nat = Some (mix_lane rvol s r).
Proof.
  intros Hi Hs Hl Hr. unfold mixed.
  destruct (mix_block_frame (take 16 out) (take 8 data) lvol rvol i s l r)
    as [H0 H1]; try done; try (rewrite lookup_take_lt by lia; done).
  split; by apply lookup_app_l_Some.
Qed.

(** Past the block nothing changes. *)
Lemma mixed_rest out data lvol rvol j :
  (16 <= length out)%nat -> (8 <= length data)%nat -> (16 <= j)%nat ->
  mixed out data lvol rvol !! j = out !! j.
Proof.
  intros Ho Hd Hj. unfold mixed.
  rewrite lookup_app_r; rewrite length_mix_block
    by (rewrite length_take; lia); [|lia].
  rewrite lookup_drop. f_equal. lia.
Qed.

Lemma drop_mixed out data lvol rvol :
  (16 <= length out)%nat -> (8 <= length data)%nat ->
  drop 16 (mixed out data lvol rvol) = drop 16 out.
Proof.
  intros Ho Hd. unfold mixed.
  apply drop_app_length'. rewrite length_mix_block; [done|..];
    rewrite length_take; lia.
Qed.

(** ** The vector lanes against a per-sample loop *)

Lemma mix_lanes_zip vol d acc :
  (length d <= 8)%nat -> mix_lanes vol d acc = zip_with (mix_lane vol) d acc.
Proof.
  intros Hd. apply list_eq. intros i.
  unfold mix_lanes, vqaddq_s16. rewrite !lookup_zip_with.
  destruct (d !! i) as [s|] eqn:Hs.
  - rewrite scaled_lanes_lookup, Hs by (apply lookup_lt_Some in Hs; lia).
    done.
  - apply lookup_ge_None_1 in Hs.
    rewrite (lookup_ge_None_2 (scaled_lanes vol d)); [done|].
    unfold scaled_lanes, vshrq_n_s16.
    rewrite length_fmap, length_product_lanes. lia.
Qed.

Lemma zip_mix_lane_spec vol d : forall acc,
  Forall Lane.is_int8 d -> Lane.is_uint8 vol ->
  zip_with (mix_lane vol) d acc
  = zip_with (fun s a => Spec.SaturatingAccumulator (Spec.ScaleAndShift s vol) a)
      d acc.
Proof.
  intros acc Hd Hvol. revert acc.
  induction Hd as [|s d Hs Hd IH]; intros [|a acc]; try done.
  simpl. rewrite IH. f_equal.
  rewrite SaturatingAccumulator_sat16. unfold Spec.ScaleAndShift.
  by apply mix_lane_exact.
Qed.

(** The per-sample path of the spec, written with the de-interleaved lanes
    of the frames it covers. *)
Lemma ScalarFallback_frames lv rv data : forall out,
  (2 * length data <= length out)%nat ->
  Spec.ScalarFallback data out lv rv
  = interleave
      (zip_with (fun s a => Spec.SaturatingAccumulator (Spec.ScaleAndShift s lv) a)
         data (val_0 (deinterleave (take (2 * length data) out))))
      (zip_with (fun s a => Spec.SaturatingAccumulator (Spec.ScaleAndShift s rv) a)
         data (val_1 (deinterleave (take (2 * length data) out))))
    ++ drop (2 * length data) out.
Proof.
  induction data as [|s data IH]; intros out Hlen; [done|].
  destruct out as [|l [|r out]]; try (simpl in Hlen; lia).
  replace (2 * length (s :: data))%nat with (S (S (2 * length data)))
    by (simpl; lia).
  cbn [Spec.ScalarFallback take drop deinterleave val_0 val_1 zip_with
       interleave app].
  rewrite IH at 1 by (simpl in Hlen; lia). done.
Qed.

(** On one whole block the vector result is the per-sample result. *)
Lemma mixed_ScalarFallback out data lvol rvol :
  length data = 8%nat -> (16 <= length out)%nat ->
  Forall Lane.is_int8 data -> Lane.is_uint8 lvol -> Lane.is_uint8 rvol ->
  mixed out data lvol rvol = Spec.ScalarFallback data out lvol rvol.
Proof.
  intros Hd Ho Hdata Hl Hr.
  rewrite ScalarFallback_frames by lia. rewrite Hd.
  unfold mixed, mix_block. rewrite (take_ge data) by lia.
  rewrite !mix_lanes_zip by lia.
  by rewrite !zip_mix_lane_spec.
Qed.

(** Only the first 8 source samples take part. *)
Lemma mixed_take_data out data lvol rvol :
  mixed out (take 8 data) lvol rvol = mixed out data lvol rvol.
Proof. unfold mixed. by rewrite take_take. Qed.

(** ** Silence *)

Lemma interleave_deinterleave n : forall l,
  length l = (2 * n)%nat ->
  interleave (val_0 (deinterleave l)) (val_1 (deinterleave l)) = l.
Proof.
  induction n as [|n IH]; intros l Hl.
  - destruct l; [done|simpl in Hl; lia].
  - destruct l as [|a [|b l]]; try (simpl in Hl; lia).
    cbn [deinterleave val_0 val_1 interleave].
    rewrite IH; [done|simpl in Hl; lia].
Qed.

Lemma Forall_deinterleave (P : Z -> Prop) n : forall l,
  length l = (2 * n)%nat -> Forall P l ->
  Forall P (val_0 (deinterleave l)) /\ Forall P (val_1 (deinterleave l)).
Proof.
  induction n as [|n IH]; intros l Hl HP.
  - destruct l; [done|simpl in Hl; lia].
  - destruct l as [|a [|b l]]; try (simpl in Hl; lia).
    apply Forall_cons in HP as [Ha HP]. apply Forall_cons in HP as [Hb HP].
    destruct (IH l) as [H0 H1]; [simpl in Hl; lia|done|].
    cbn [deinterleave val_0 val_1]. split; by apply Forall_cons.
Qed.

Lemma zip_mix_lane_silent d : forall acc,
  length d = length acc -> Forall Lane.is_int16 acc ->
  zip_with (mix_lane 0) d acc = acc.
Proof.
  induction d as [|s d IH]; intros [|a acc] Hlen Hacc; try done.
  apply Forall_cons in Hacc as [Ha Hacc].
  simpl. rewrite IH by (simpl in Hlen; done || lia).
  by rewrite mix_lane_silent.
Qed.

Lemma mixed_silent out data :
  (16 <= length out)%nat -> (8 <= length data)%nat ->
  Forall Lane.is_int16 out ->
  mixed out data 0 0 = out.
Proof.
  intros Ho Hd Hout. unfold mixed, mix_block.
  assert (length (take 16 out) = (2 * 8)%nat) as H16
    by (rewrite length_take; lia).
  destruct (length_deinterleave 8 _ H16) as [L0 L1].
  destruct (Forall_deinterleave Lane.is_int16 8 (take 16 out)) as [F0 F1];
    [done|by apply Forall_take|].
  rewrite !mix_lanes_zip by (rewrite length_take; lia).
  rewrite !zip_mix_lane_silent; try done;
    try (rewrite length_take; lia).
  rewrite (interleave_deinterleave 8) by done.
  apply take_drop.
Qed.

(** ** Access bounds *)

Lemma block_trace_in_block : Forall in_block block_trace.
Proof. by_decide. Qed.

Lemma within_declared_mono N N' a :
  (N <= N')%nat -> within_declared N a -> within_declared N' a.
Proof. destruct a; simpl; lia. Qed.

Lemma fmap_seq_snoc (tag : nat -> access) n :
  (tag <$> seq 0 n) ++ [tag n] = tag <$> seq 0 (S n).
Proof. by rewrite seq_S, fmap_app. Qed.

Lemma fmap_seq_prefix (tag : nat -> access) n N :
  (n <= N)%nat -> (tag <$> seq 0 n) `prefix_of` (tag <$> seq 0 N).
Proof.
  intros Hn. exists (tag <$> seq n (N - n)).
  replace N with (n + (N - n))%nat at 1 by lia.
  by rewrite seq_app, fmap_app.
Qed.

(** Whatever the buffers, the accesses of a call are an initial segment of
    the fixed block sequence. *)
Lemma attempted_prefix out data lvol rvol len :
  attempted (call out data lvol rvol len) `prefix_of` block_trace.
Proof.
  destruct (decide (length out < 16)%nat) as [Ho|Ho].
  { rewrite call_fault_out by done. cbn [attempted m_trace].
    rewrite fmap_seq_snoc. unfold block_trace.
    apply prefix_app_r, fmap_seq_prefix. lia. }
  destruct (decide (length data < 8)%nat) as [Hd|Hd].
  { rewrite call_fault_data by lia. cbn [attempted m_trace].
    rewrite <- app_assoc, fmap_seq_snoc. unfold block_trace.
    apply prefix_app, prefix_app_r, fmap_seq_prefix. lia. }
  rewrite call_done by lia. done.
Qed.

(** Frame [i] after a complete call, in plain integer arithmetic: for a
    sample and volumes of the declared types, each channel's sample is the
    old one plus the shifted product, clamped to the int16 range. *)
Lemma mixed_frame_clamped out data lvol rvol i s l r :
  (i < 8)%nat -> data !! i = Some s ->
  out !! (2 * i)%nat = Some l -> out !! (2 * i + 1)%nat = Some r ->
  Lane.is_int8 s -> Lane.is_uint8 lvol -> Lane.is_uint8 rvol ->
  mixed out data lvol rvol !! (2 * i)%nat
  = Some (Z.max (-32768) (Z.min 32767 (Z.shiftr (s * lvol) 8 + l)))
  /\ mixed out data lvol rvol !! (2 * i + 1)%nat
     = Some (Z.max (-32768) (Z.min 32767 (Z.shiftr (s * rvol) 8 + r))).
Proof.
  intros Hi Hs Hl Hr Hs8 Hlv Hrv.
  destruct (mixed_frame out data lvol rvol i s l r) as [H0 H1]; try done.
  rewrite mix_lane_exact, sat16_max_min in H0, H1 by done.
  done.
Qed.

(** ** The properties of the specification, against the code *)

(** C1 (counterexample).  A valid tuple with [length = 16], two vector
    widths: the vector path completes but mixes only the first 8 frames, the
    reference path mixes all 16, so the outputs differ from frame 8 on. *)
Lemma vector_scalar_differ_on_16_frames :
  valid_input (replicate 32 0) (replicate 16 100) 128 255 16
  /\ call (replicate 32 0) (replicate 16 100) 128 255 16
     = Done tt {| m_out := [50; 99; 50; 99; 50; 99; 50; 99;
                            50; 99; 50; 99; 50; 99; 50; 99]
                           ++ replicate 16 0;
                  m_data := replicate 16 100;
                  m_trace := block_trace |}
  /\ Spec.mixChannels (replicate 32 0) (replicate 16 100) 128 255 16
     = inr [50; 99; 50; 99; 50; 99; 50; 99; 50; 99; 50; 99; 50; 99; 50; 99;
            50; 99; 50; 99; 50; 99; 50; 99; 50; 99; 50; 99; 50; 99; 50; 99]
  /\ ~ agrees_with_scalar (replicate 32 0) (replicate 16 100) 128 255 16.
Proof.
  split_and!.
  - unfold valid_input. split_and!; try (vm_compute; done).
    + by_decide.
    + by_decide.
  - reflexivity.
  - reflexivity.
  - intros (m & Hcall & Hspec).
    vm_compute in Hcall, Hspec. by simplify_eq.
Qed.

(** C1 (amended).  For every valid input tuple whose length is at least 8
    the vector path completes and its output is the output of the per-sample
    reference path run on the first 8 source samples; so when the length is
    exactly 8, one vector block, the two paths end with the same output. *)
Theorem vector_scalar_equiv_one_block out data lvol rvol len :
  valid_input out data lvol rvol len -> 8 <= len ->
  exists m,
    call out data lvol rvol len = Done tt m
    /\ m_out m = Spec.ScalarFallback (take 8 data) out lvol rvol
    /\ (len = 8 -> agrees_with_scalar out data lvol rvol len).
Proof.
  intros (Hlen & Hout & Hdata & _ & Hl & Hr) H8.
  assert (call out data lvol rvol len
          = Done tt {| m_out := mixed out data lvol rvol; m_data := data;
                       m_trace := block_trace |}) as Hcall
    by (apply call_done; lia).
  eexists. split; [exact Hcall|]. cbn [m_out]. split.
  - rewrite <- mixed_take_data.
    apply mixed_ScalarFallback; try done.
    + rewrite length_take. lia.
    + lia.
    + by apply Forall_take.
  - intros ->. eexists. split; [exact Hcall|].
    unfold Spec.mixChannels. rewrite bool_decide_eq_true_2 by done.
    cbn [m_out]. f_equal. symmetry.
    apply mixed_ScalarFallback; try done; lia.
Qed.

Lemma vector_scalar_equiv_one_block_witness :
  exists m,
    call (replicate 16 1000) [100; -128; 127; 0; -1; 1; 64; -64] 128 255 8
    = Done tt m
    /\ m_out m
       = Spec.ScalarFallback (take 8 [100; -128; 127; 0; -1; 1; 64; -64])
           (replicate 16 1000) 128 255
    /\ (8 = 8 ->
        agrees_with_scalar (replicate 16 1000)
          [100; -128; 127; 0; -1; 1; 64; -64] 128 255 8).
Proof.
  apply vector_scalar_equiv_one_block; [|lia].
  unfold valid_input. split_and!; try (vm_compute; done).
  - by_decide.
  - by_decide.
Defined.

(** C2 (counterexample).  On the buffers of the boundary example, one source
    sample and one output frame, the call does not end with [50; 99]: the
    16-sample block load leaves the output buffer at index 2 and nothing is
    stored. *)
Lemma boundary_example_leaves_buffer :
  call [0; 0] [100] 128 255 1
  = Fault (ReadOut 2)
      {| m_out := [0; 0]; m_data := [100];
         m_trace := [ReadOut 0; ReadOut 1] |}
  /\ ~ (exists m, call [0; 0] [100] 128 255 1 = Done tt m
                  /\ m_out m = [50; 99]).
Proof.
  split; [reflexivity|].
  intros (m & Hcall & _). vm_compute in Hcall. discriminate.
Qed.

(** C2 (amended).  With the sample 100 heading a source block of at least 8
    samples and the frame (0, 0) heading an output block of at least 16
    samples, a call with leftVolume = 128 and rightVolume = 255 (whatever
    length says) terminates with 50 in the left and 99 in the right sample
    of the first frame. *)
Theorem boundary_example_in_block out' data' len :
  (14 <= length out')%nat -> (7 <= length data')%nat ->
  exists m, call (0 :: 0 :: out') (100 :: data') 128 255 len = Done tt m
            /\ m_out m !! 0%nat = Some 50
            /\ m_out m !! 1%nat = Some 99.
Proof.
  intros Ho Hd. eexists. split; [apply call_done; simpl; lia|].
  cbn [m_out].
  destruct (mixed_frame (0 :: 0 :: out') (100 :: data') 128 255 0 100 0 0)
    as [H0 H1]; [lia|done..|].
  change (mix_lane 128 100 0) with 50 in H0.
  change (mix_lane 255 100 0) with 99 in H1.
  done.
Qed.

Lemma boundary_example_in_block_witness :
  exists m, call (0 :: 0 :: replicate 14 0) (100 :: replicate 7 0) 128 255 1
            = Done tt m
            /\ m_out m !! 0%nat = Some 50
            /\ m_out m !! 1%nat = Some 99.
Proof. apply boundary_example_in_block; simpl; lia. Defined.

(** C3.  A call on buffers holding a block completes, and every sample of
    the block it stores lies in [-32768, 32767].  For a source sample in
    [-128, 127] and volumes in [0, 255], each channel's sample of the frame
    becomes the previous sample plus the contribution (s * volume) >> 8,
    clamped to [-32768, 32767] and never wrapped; with leftVolume = 255,
    source sample -128 and previous sample -32768 the left sample stays
    -32768. *)
Theorem saturation_bound out data lvol rvol len :
  (16 <= length out)%nat -> (8 <= length data)%nat ->
  exists m,
    call out data lvol rvol len = Done tt m
    /\ (forall j, (j < 16)%nat ->
          exists v, m_out m !! j = Some v /\ -32768 <= v <= 32767)
    /\ (forall i s l r,
          (i < 8)%nat -> data !! i = Some s ->
          out !! (2 * i)%nat = Some l -> out !! (2 * i + 1)%nat = Some r ->
          -128 <= s <= 127 -> 0 <= lvol <= 255 -> 0 <= rvol <= 255 ->
          m_out m !! (2 * i)%nat
          = Some (Z.max (-32768) (Z.min 32767 (Z.shiftr (s * lvol) 8 + l)))
          /\ m_out m !! (2 * i + 1)%nat
             = Some (Z.max (-32768) (Z.min 32767 (Z.shiftr (s * rvol) 8 + r)))
          /\ (lvol = 255 -> s = -128 -> l = -32768 ->
              m_out m !! (2 * i)%nat = Some (-32768))).
Proof.
  intros Ho Hd. eexists. split; [by apply call_done|]. cbn [m_out].
  split.
  - intros j Hj.
    assert (exists i, (i < 8)%nat /\ (j = 2 * i \/ j = 2 * i + 1)%nat)
      as (i & Hi & Hji).
    { exists (j / 2)%nat.
      pose proof (Nat.div_mod_eq j 2). pose proof (Nat.mod_upper_bound j 2).
      lia. }
    destruct (lookup_lt_is_Some_2 data i) as [s Hs]; [lia|].
    destruct (lookup_lt_is_Some_2 out (2 * i)) as [l Hl]; [lia|].
    destruct (lookup_lt_is_Some_2 out (2 * i + 1)) as [r Hr]; [lia|].
    destruct (mixed_frame out data lvol rvol i s l r) as [H0 H1]; try done.
    destruct Hji as [-> | ->].
    + exists (mix_lane lvol s l). split; [exact H0|apply mix_lane_range].
    + exists (mix_lane rvol s r). split; [exact H1|apply mix_lane_range].
  - intros i s l r Hi Hs Hl Hr Hs8 Hlv Hrv.
    destruct (mixed_frame_clamped out data lvol rvol i s l r) as [H0 H1];
      try done.
    split_and!; try done.
    intros -> -> ->. by rewrite H0.
Qed.

Lemma saturation_bound_witness :
  exists m,
    call [32700; 32700; -32768; -32768; 0; 0; 7; 7; 7; 7; 7; 7; 7; 7; 7; 7]
      [127; -128; 100; 0; -1; 1; 64; -64] 255 255 8 = Done tt m
    /\ (forall j, (j < 16)%nat ->
          exists v, m_out m !! j = Some v /\ -32768 <= v <= 32767)
    /\ (forall i s l r,
          (i < 8)%nat ->
          [127; -128; 100; 0; -1; 1; 64; -64] !! i = Some s ->
          [32700; 32700; -32768; -32768; 0; 0; 7; 7; 7; 7; 7; 7; 7; 7; 7; 7]
            !! (2 * i)%nat = Some l ->
          [32700; 32700; -32768; -32768; 0; 0; 7; 7; 7; 7; 7; 7; 7; 7; 7; 7]
            !! (2 * i + 1)%nat = Some r ->
          -128 <= s <= 127 -> 0 <= 255 <= 255 -> 0 <= 255 <= 255 ->
          m_out m !! (2 * i)%nat
          = Some (Z.max (-32768) (Z.min 32767 (Z.shiftr (s * 255) 8 + l)))
          /\ m_out m !! (2 * i + 1)%nat
             = Some (Z.max (-32768) (Z.min 32767 (Z.shiftr (s * 255) 8 + r)))
          /\ (255 = 255 -> s = -128 -> l = -32768 ->
              m_out m !! (2 * i)%nat = Some (-32768))).
Proof. apply saturation_bound; simpl; lia. Defined.

(** C4 (counterexample).  Two calls with [length = 4].  With a source of 8
    samples (so source length differs from [length]) the call completes and
    has mixed the whole block into the output.  With the 3-sample source of
    the spec's example the call stops only when the data load runs off the
    source, after 19 buffer accesses.  Neither is a rejection before any
    buffer access. *)
Lemma length_mismatch_not_rejected :
  (Z.of_nat (length [100; 0; 0; 0; 0; 0; 0; 0]) <> 4
   /\ call (replicate 16 0) [100; 0; 0; 0; 0; 0; 0; 0] 128 255 4
      = Done tt {| m_out := 50 :: 99 :: replicate 14 0;
                   m_data := [100; 0; 0; 0; 0; 0; 0; 0];
                   m_trace := block_trace |}
   /\ ~ rejected_before_access (replicate 16 0)
         (call (replicate 16 0) [100; 0; 0; 0; 0; 0; 0; 0] 128 255 4))
  /\ (Z.of_nat (length [100; 0; 0]) <> 4
      /\ call (replicate 16 0) [100; 0; 0] 128 255 4
         = Fault (ReadData 3)
             {| m_out := replicate 16 0;
                m_data := [100; 0; 0];
                m_trace := (ReadOut <$> seq 0 16)
                           ++ [ReadData 0; ReadData 1; ReadData 2] |}
      /\ ~ rejected_before_access (replicate 16 0)
            (call (replicate 16 0) [100; 0; 0] 128 255 4)).
Proof.
  split; (split_and!; [simpl; lia|vm_compute; reflexivity|]);
    intros (_ & Ha & _); vm_compute in Ha; discriminate Ha.
Qed.

(** C4 (amended).  The mixer validates nothing and has no failure result of
    its own; what a call does depends on the buffers alone, never on the
    length argument.  With fewer than 16 output samples the block load runs
    off the output buffer; otherwise, with fewer than 8 source samples, the
    data load runs off the source; in both cases nothing has been stored.
    In every other case the call completes with the first block mixed. *)
Theorem no_length_validation out data lvol rvol len :
  call out data lvol rvol len
  = if decide (length out < 16)%nat then
      Fault (ReadOut (length out))
        {| m_out := out; m_data := data;
           m_trace := ReadOut <$> seq 0 (length out) |}
    else if decide (length data < 8)%nat then
      Fault (ReadData (length data))
        {| m_out := out; m_data := data;
           m_trace := (ReadOut <$> seq 0 16)
                      ++ (ReadData <$> seq 0 (length data)) |}
    else
      Done tt {| m_out := mixed out data lvol rvol;
                 m_data := data;
                 m_trace := block_trace |}.
Proof.
  destruct (decide (length out < 16)%nat) as [Ho|Ho];
    [by apply call_fault_out|].
  destruct (decide (length data < 8)%nat) as [Hd|Hd];
    [apply call_fault_data; lia|].
  apply call_done; lia.
Qed.

(** C5 (counterexample).  The boundary example again, [N = length = 1] with
    an output of [2 * N] samples: the third access is to output index 2,
    outside the declared bounds. *)
Lemma block_load_exceeds_declared_bounds :
  length [100] = 1%nat
  /\ (2 * 1 <= length [0; 0])%nat
  /\ attempted (call [0; 0] [100] 128 255 1)
     = [ReadOut 0; ReadOut 1; ReadOut 2]
  /\ ~ Forall (within_declared 1) (attempted (call [0; 0] [100] 128 255 1)).
Proof.
  split_and!; [done|simpl; lia|reflexivity|].
  intros H. apply (Forall_lookup_1 _ _ 2%nat (ReadOut 2)) in H; [|done].
  simpl in H. lia.
Qed.

(** C5 (amended).  For every call with source length N = length, N at least
    8, and output length at least 2 * N, the mixer completes having read
    source indices 0..7 and read and written output indices 0..15, and
    nothing else: every access is inside the declared bounds. *)
Theorem accesses_within_bounds_from_8 out data lvol rvol (N : nat) :
  length data = N -> (2 * N <= length out)%nat -> (8 <= N)%nat ->
  exists m,
    call out data lvol rvol (Z.of_nat N) = Done tt m
    /\ m_trace m = (ReadOut <$> seq 0 16) ++ (ReadData <$> seq 0 8)
                   ++ (WriteOut <$> seq 0 16)
    /\ Forall (within_declared N) (m_trace m).
Proof.
  intros Hd Ho HN. eexists. split; [apply call_done; lia|].
  cbn [m_trace]. split; [done|].
  eapply Forall_impl; [apply block_trace_in_block|].
  intros a. by apply within_declared_mono.
Qed.

Lemma accesses_within_bounds_from_8_witness :
  exists m,
    call (replicate 18 7) (replicate 9 100) 128 255 (Z.of_nat 9) = Done tt m
    /\ m_trace m = (ReadOut <$> seq 0 16) ++ (ReadData <$> seq 0 8)
                   ++ (WriteOut <$> seq 0 16)
    /\ Forall (within_declared 9) (m_trace m).
Proof.
  apply accesses_within_bounds_from_8; [reflexivity|simpl; lia|lia].
Defined.

(** C6.  In a call on buffers holding a block, for every source sample s in
    [-128, 127] and every volume f in [0, 255], the product s * f fits the
    16-bit lane it is computed in, and the contribution the call adds to a
    channel is exactly (s * f) >> 8: whenever the previous sample plus
    (s * f) >> 8 fits int16 that sum is what the call stores, so a previous
    sample of 0 is replaced by (s * f) >> 8 itself. *)
Theorem scale_and_shift_exact out data lvol rvol len i s l r :
  (16 <= length out)%nat -> (8 <= length data)%nat -> (i < 8)%nat ->
  data !! i = Some s ->
  out !! (2 * i)%nat = Some l -> out !! (2 * i + 1)%nat = Some r ->
  -128 <= s <= 127 -> 0 <= lvol <= 255 -> 0 <= rvol <= 255 ->
  completes (call out data lvol rvol len) = true
  /\ (-32768 <= s * lvol <= 32767 /\ -32768 <= s * rvol <= 32767)
  /\ (-32768 <= l + Z.shiftr (s * lvol) 8 <= 32767 ->
      final_out (call out data lvol rvol len) !! (2 * i)%nat
      = Some (l + Z.shiftr (s * lvol) 8))
  /\ (-32768 <= r + Z.shiftr (s * rvol) 8 <= 32767 ->
      final_out (call out data lvol rvol len) !! (2 * i + 1)%nat
      = Some (r + Z.shiftr (s * rvol) 8))
  /\ (l = 0 ->
      final_out (call out data lvol rvol len) !! (2 * i)%nat
      = Some (Z.shiftr (s * lvol) 8))
  /\ (r = 0 ->
      final_out (call out data lvol rvol len) !! (2 * i + 1)%nat
      = Some (Z.shiftr (s * rvol) 8)).
Proof.
  intros Ho Hd Hi Hs Hl Hr Hs8 Hlv Hrv.
  rewrite call_done by done. cbn [completes final_out m_out].
  destruct (mixed_frame_clamped out data lvol rvol i s l r) as [H0 H1];
    try done.
  assert (forall f, 0 <= f <= 255 -> -128 <= Z.shiftr (s * f) 8 <= 127)
    as Hc.
  { intros f Hf. rewrite Z.shiftr_div_pow2 by lia.
    change (2 ^ 8) with 256.
    pose proof (Z.div_mod (s * f) 256) as Hdm.
    pose proof (Z.mod_pos_bound (s * f) 256) as Hm.
    assert (-32640 <= s * f <= 32385) by nia. lia. }
  pose proof (Hc lvol Hlv). pose proof (Hc rvol Hrv).
  split_and!; try done; try nia.
  - intros Hfit. rewrite H0. f_equal. lia.
  - intros Hfit. rewrite H1. f_equal. lia.
  - intros ->. rewrite H0. f_equal. lia.
  - intros ->. rewrite H1. f_equal. lia.
Qed.

Lemma scale_and_shift_exact_witness :
  completes (call [0; 0; 1000; -1000; 0; 0; 0; 0; 0; 0; 0; 0; 0; 0; 0; 0]
               [-128; 127; 100; -1; 0; 1; -100; 64] 255 128 8) = true
  /\ (-32768 <= -128 * 255 <= 32767 /\ -32768 <= -128 * 128 <= 32767)
  /\ (-32768 <= 0 + Z.shiftr (-128 * 255) 8 <= 32767 ->
      final_out (call [0; 0; 1000; -1000; 0; 0; 0; 0; 0; 0; 0; 0; 0; 0; 0; 0]
                   [-128; 127; 100; -1; 0; 1; -100; 64] 255 128 8)
        !! (2 * 0)%nat
      = Some (0 + Z.shiftr (-128 * 255) 8))
  /\ (-32768 <= 0 + Z.shiftr (-128 * 128) 8 <= 32767 ->
      final_out (call [0; 0; 1000; -1000; 0; 0; 0; 0; 0; 0; 0; 0; 0; 0; 0; 0]
                   [-128; 127; 100; -1; 0; 1; -100; 64] 255 128 8)
        !! (2 * 0 + 1)%nat
      = Some (0 + Z.shiftr (-128 * 128) 8))
  /\ (0 = 0 ->
      final_out (call [0; 0; 1000; -1000; 0; 0; 0; 0; 0; 0; 0; 0; 0; 0; 0; 0]
                   [-128; 127; 100; -1; 0; 1; -100; 64] 255 128 8)
        !! (2 * 0)%nat
      = Some (Z.shiftr (-128 * 255) 8))
  /\ (0 = 0 ->
      final_out (call [0; 0; 1000; -1000; 0; 0; 0; 0; 0; 0; 0; 0; 0; 0; 0; 0]
                   [-128; 127; 100; -1; 0; 1; -100; 64] 255 128 8)
        !! (2 * 0 + 1)%nat
      = Some (Z.shiftr (-128 * 128) 8)).
Proof.
  apply (scale_and_shift_exact
           [0; 0; 1000; -1000; 0; 0; 0; 0; 0; 0; 0; 0; 0; 0; 0; 0]
           [-128; 127; 100; -1; 0; 1; -100; 64] 255 128 8 0%nat (-128) 0 0);
    try reflexivity; simpl; lia.
Defined.

(** C7.  With leftVolume = 0 and rightVolume = 0 the output buffer is left
    as it was, for every source block and every int16 contents of the
    output: a call on buffers holding a block completes with the output
    unchanged, and a call on shorter buffers stores nothing. *)
Theorem silence_preserving out data len :
  Forall Lane.is_int16 out ->
  final_out (call out data 0 0 len) = out
  /\ ((16 <= length out)%nat -> (8 <= length data)%nat ->
      call out data 0 0 len
      = Done tt {| m_out := out; m_data := data; m_trace := block_trace |}).
Proof.
  intros Hout. split.
  - destruct (decide (length out < 16)%nat) as [Ho|Ho];
      [by rewrite call_fault_out|].
    destruct (decide (length data < 8)%nat) as [Hd|Hd];
      [by rewrite call_fault_data by lia|].
    rewrite call_done by lia. cbn [final_out m_out].
    apply mixed_silent; lia || done.
  - intros Ho Hd. rewrite call_done by done.
    by rewrite mixed_silent.
Qed.

Lemma silence_preserving_witness :
  final_out (call [1; -2; 3; -4; 5; -6; 7; -8; 9; -10; 11; -12; 13; -14;
                   32767; -32768; 17; 18]
               [100; -128; 127; 0; -1; 1; 64; -64] 0 0 8)
  = [1; -2; 3; -4; 5; -6; 7; -8; 9; -10; 11; -12; 13; -14;
     32767; -32768; 17; 18].
Proof.
  apply (silence_preserving
           [1; -2; 3; -4; 5; -6; 7; -8; 9; -10; 11; -12; 13; -14;
            32767; -32768; 17; 18]
           [100; -128; 127; 0; -1; 1; 64; -64] 8).
  by_decide.
Defined.

(** C8 (counterexample).  A silent output block, the sample 100 and
    rightVolume = 255: the call changes the right sample of the first frame
    from 0 to 99. *)
Lemma right_channel_is_written :
  replicate 16 0 !! 1%nat = Some 0
  /\ call (replicate 16 0) [100; 0; 0; 0; 0; 0; 0; 0] 0 255 8
     = Done tt {| m_out := 0 :: 99 :: replicate 14 0;
                  m_data := [100; 0; 0; 0; 0; 0; 0; 0];
                  m_trace := block_trace |}
  /\ final_out (call (replicate 16 0) [100; 0; 0; 0; 0; 0; 0; 0] 0 255 8)
       !! 1%nat = Some 99.
Proof. split_and!; reflexivity. Qed.

(** C8 (amended).  A mix call writes both channels: on buffers holding a
    block it completes and, for a source sample s in [-128, 127] and volumes
    in [0, 255], the right (odd-index) sample of each of the first 8 frames
    becomes ((s * rightVolume) >> 8) plus its previous value, clamped to
    [-32768, 32767], just as the left sample does with leftVolume; the
    samples from index 16 on are unchanged. *)
Theorem both_channels_written out data lvol rvol len :
  (16 <= length out)%nat -> (8 <= length data)%nat ->
  0 <= lvol <= 255 -> 0 <= rvol <= 255 ->
  exists m,
    call out data lvol rvol len = Done tt m
    /\ (forall i s l r,
          (i < 8)%nat -> data !! i = Some s ->
          out !! (2 * i)%nat = Some l -> out !! (2 * i + 1)%nat = Some r ->
          -128 <= s <= 127 ->
          m_out m !! (2 * i + 1)%nat
          = Some (Z.max (-32768) (Z.min 32767 (Z.shiftr (s * rvol) 8 + r)))
          /\ m_out m !! (2 * i)%nat
             = Some (Z.max (-32768) (Z.min 32767 (Z.shiftr (s * lvol) 8 + l))))
    /\ (forall j, (16 <= j)%nat -> m_out m !! j = out !! j).
Proof.
  intros Ho Hd Hlv Hrv. eexists. split; [by apply call_done|].
  cbn [m_out]. split.
  - intros i s l r Hi Hs Hl Hr Hs8.
    destruct (mixed_frame_clamped out data lvol rvol i s l r) as [H0 H1];
      done.
  - intros j Hj. by apply mixed_rest.
Qed.

Lemma both_channels_written_witness :
  exists m,
    call (replicate 18 5) [100; -128; 127; 0; -1; 1; 64; -64] 128 255 8
    = Done tt m
    /\ (forall i s l r,
          (i < 8)%nat ->
          [100; -128; 127; 0; -1; 1; 64; -64] !! i = Some s ->
          replicate 18 5 !! (2 * i)%nat = Some l ->
          replicate 18 5 !! (2 * i + 1)%nat = Some r ->
          -128 <= s <= 127 ->
          m_out m !! (2 * i + 1)%nat
          = Some (Z.max (-32768) (Z.min 32767 (Z.shiftr (s * 255) 8 + r)))
          /\ m_out m !! (2 * i)%nat
             = Some (Z.max (-32768) (Z.min 32767 (Z.shiftr (s * 128) 8 + l))))
    /\ (forall j, (16 <= j)%nat -> m_out m !! j = replicate 18 5 !! j).
Proof. apply both_channels_written; simpl; lia. Defined.

(** C9.  The length argument plays no part: two calls that differ only in
    it have the same outcome, accesses included.  The accesses of any call
    are an initial segment of one fixed sequence, and a call that completes
    has loaded output samples 0..15, loaded source samples 0..7 and stored
    output samples 0..15; the 16 stored values depend only on those 16 and
    8 loaded ones, and the output past them is unchanged. *)
Theorem len_is_ignored out data lvol rvol len :
  (forall len', call out data lvol rvol len' = call out data lvol rvol len)
  /\ attempted (call out data lvol rvol len)
     `prefix_of` (ReadOut <$> seq 0 16) ++ (ReadData <$> seq 0 8)
                 ++ (WriteOut <$> seq 0 16)
  /\ ((16 <= length out)%nat -> (8 <= length data)%nat ->
      exists out',
        call out data lvol rvol len
        = Done tt {| m_out := out'; m_data := data;
                     m_trace := (ReadOut <$> seq 0 16)
                                ++ (ReadData <$> seq 0 8)
                                ++ (WriteOut <$> seq 0 16) |}
        /\ length out' = length out
        /\ take 16 out' = mix_block (take 16 out) (take 8 data) lvol rvol
        /\ drop 16 out' = drop 16 out).
Proof.
  split_and!.
  - done.
  - apply attempted_prefix.
  - intros Ho Hd. exists (mixed out data lvol rvol).
    split_and!.
    + by apply call_done.
    + by apply length_mixed.
    + unfold mixed. apply take_app_length'.
      rewrite length_mix_block; [done|..]; rewrite length_take; lia.
    + by apply drop_mixed.
Qed.

Lemma len_is_ignored_witness :
  exists out',
    call (replicate 18 5) (replicate 9 100) 128 255 1
    = Done tt {| m_out := out'; m_data := replicate 9 100;
                 m_trace := (ReadOut <$> seq 0 16)
                            ++ (ReadData <$> seq 0 8)
                            ++ (WriteOut <$> seq 0 16) |}
    /\ length out' = length (replicate 18 5)
    /\ take 16 out'
       = mix_block (take 16 (replicate 18 5)) (take 8 (replicate 9 100))
           128 255
    /\ drop 16 out' = drop 16 (replicate 18 5).
Proof.
  apply (len_is_ignored (replicate 18 5) (replicate 9 100) 128 255 1);
    simpl; lia.
Defined.

(** C10.  For every volume v in [0, 255], the lanes obtained by repeating v,
    widening to unsigned 16 bits and reinterpreting as signed 16 bits all
    hold v itself, so both multiplies use the intended scale factor. *)
Theorem scale_factor_reinterpret_preserves v :
  Lane.is_uint8 v ->
  vmovl_u8 (vdup_n_u8 v) = replicate 8 v
  /\ vreinterpretq_s16_u16 (vmovl_u8 (vdup_n_u8 v)) = replicate 8 v.
Proof.
  intros Hv. unfold vreinterpretq_s16_u16, vmovl_u8, vdup_n_u8.
  rewrite !fmap_replicate, land_255_small by done.
  split; [done|].
  rewrite signed16_small; [done|].
  unfold Lane.is_uint8 in Hv.
  unfold Lane.is_int16, Lane.INT16_MIN, Lane.INT16_MAX. lia.
Qed.

Lemma scale_factor_reinterpret_preserves_witness :
  vmovl_u8 (vdup_n_u8 255) = replicate 8 255
  /\ vreinterpretq_s16_u16 (vmovl_u8 (vdup_n_u8 255)) = replicate 8 255.
Proof.
  apply scale_factor_reinterpret_preserves. unfold Lane.is_uint8. lia.
Defined.

(** ** Further properties of the mixer *)

Section more_lane_facts.

Import Lane.

Lemma scaled_lane_div s v :
  is_int8 s -> is_uint8 v -> scaled_lane v s = s * v / 256.
Proof.
  intros Hs Hv. rewrite scaled_lane_exact by done.
  by rewrite Z.shiftr_div_pow2 by lia.
Qed.

Lemma scaled_lane_zero_sample v : scaled_lane v 0 = 0.
Proof.
  unfold scaled_lane, product_lane.
  change (signed 8 0) with 0. by rewrite Z.mul_0_l.
Qed.

(** The contribution has the sign of the sample and never exceeds it in
    magnitude; the shift rounds towards minus infinity. *)
Lemma scaled_lane_nonneg s v :
  is_int8 s -> is_uint8 v -> 0 <= s -> 0 <= scaled_lane v s <= s.
Proof.
  intros Hs Hv H0. rewrite scaled_lane_div by done.
  unfold is_int8, is_uint8 in *.
  pose proof (Z.div_mod (s * v) 256) as Hdm.
  pose proof (Z.mod_pos_bound (s * v) 256) as Hm.
  assert (0 <= s * v <= s * 255) by nia. lia.
Qed.

Lemma scaled_lane_nonpos s v :
  is_int8 s -> is_uint8 v -> s <= 0 -> s <= scaled_lane v s <= 0.
Proof.
  intros Hs Hv H0. rewrite scaled_lane_div by done.
  unfold is_int8, is_uint8 in *.
  pose proof (Z.div_mod (s * v) 256) as Hdm.
  pose proof (Z.mod_pos_bound (s * v) 256) as Hm.
  assert (s * 255 <= s * v <= 0) by nia. lia.
Qed.

Lemma scaled_lane_full_volume s :
  is_int8 s -> scaled_lane 255 s = if 0 <? s then s - 1 else s.
Proof.
  intros Hs. rewrite scaled_lane_div by (unfold is_uint8; done || lia).
  unfold is_int8 in Hs.
  pose proof (Z.div_mod (s * 255) 256) as Hdm.
  pose proof (Z.mod_pos_bound (s * 255) 256) as Hm.
  destruct (Z.ltb_spec 0 s); lia.
Qed.

Lemma scaled_lane_mono_volume s v v' :
  is_int8 s -> is_uint8 v -> is_uint8 v' -> v <= v' ->
  (0 <= s -> scaled_lane v s <= scaled_lane v' s)
  /\ (s <= 0 -> scaled_lane v' s <= scaled_lane v s).
Proof.
  intros Hs Hv Hv' Hle. rewrite !scaled_lane_div by done.
  split; intros H0; apply Z.div_le_mono; lia || nia.
Qed.

Lemma sat16_mono x y : x <= y -> sat16 x <= sat16 y.
Proof.
  unfold sat16, INT16_MIN, INT16_MAX. intros Hxy.
  destruct (Z.ltb_spec x (-32768)), (Z.ltb_spec 32767 x),
    (Z.ltb_spec y (-32768)), (Z.ltb_spec 32767 y); lia.
Qed.

Lemma sat16_step_up c l : is_int16 l -> 0 <= c -> l <= sat16 (c + l) <= l + c.
Proof.
  unfold is_int16, sat16, INT16_MIN, INT16_MAX. intros Hl Hc.
  destruct (Z.ltb_spec (c + l) (-32768)), (Z.ltb_spec 32767 (c + l)); lia.
Qed.

Lemma sat16_step_down c l :
  is_int16 l -> c <= 0 -> l + c <= sat16 (c + l) <= l.
Proof.
  unfold is_int16, sat16, INT16_MIN, INT16_MAX. intros Hl Hc.
  destruct (Z.ltb_spec (c + l) (-32768)), (Z.ltb_spec 32767 (c + l)); lia.
Qed.

(** Two saturating additions of the same sign can be swapped. *)
Lemma sat16_swap_same_sign a b l :
  is_int16 l -> (0 <= a /\ 0 <= b) \/ (a <= 0 /\ b <= 0) ->
  sat16 (b + sat16 (a + l)) = sat16 (a + sat16 (b + l)).
Proof.
  unfold is_int16, sat16, INT16_MIN, INT16_MAX. intros Hl Hab.
  destruct (Z.ltb_spec (a + l) (-32768)), (Z.ltb_spec 32767 (a + l)),
    (Z.ltb_spec (b + l) (-32768)), (Z.ltb_spec 32767 (b + l));
    repeat match goal with
           | |- context [Z.ltb ?x ?y] => destruct (Z.ltb_spec x y)
           end; lia.
Qed.

Lemma sat16_twice_exact c l :
  is_int16 l -> is_int16 (l + 2 * c) -> sat16 (c + sat16 (c + l)) = l + 2 * c.
Proof.
  unfold is_int16, INT16_MIN, INT16_MAX. intros Hl Hlc.
  rewrite (sat16_id (c + l)) by (unfold is_int16, INT16_MIN, INT16_MAX; lia).
  rewrite sat16_id by (unfold is_int16, INT16_MIN, INT16_MAX; lia). lia.
Qed.

End more_lane_facts.

Lemma final_out_call out data lvol rvol len :
  (16 <= length out)%nat -> (8 <= length data)%nat ->
  final_out (call out data lvol rvol len) = mixed out data lvol rvol
  /\ completes (call out data lvol rvol len) = true.
Proof. intros Ho Hd. by rewrite call_done. Qed.

(** The frame of a complete call, with the contribution as a quotient. *)
Lemma mixed_frame_div out data lvol rvol i s l r :
  (i < 8)%nat -> data !! i = Some s ->
  out !! (2 * i)%nat = Some l -> out !! (2 * i + 1)%nat = Some r ->
  Lane.is_int8 s -> Lane.is_uint8 lvol -> Lane.is_uint8 rvol ->
  mixed out data lvol rvol !! (2 * i)%nat
  = Some (Lane.sat16 (s * lvol / 256 + l))
  /\ mixed out data lvol rvol !! (2 * i + 1)%nat
     = Some (Lane.sat16 (s * rvol / 256 + r)).
Proof.
  intros Hi Hs Hl Hr Hs8 Hlv Hrv.
  destruct (mixed_frame out data lvol rvol i s l r) as [H0 H1]; try done.
  unfold mix_lane in H0, H1.
  by rewrite scaled_lane_div in H0, H1 by done.
Qed.

Lemma zip_mix_lane_keep vol d : forall acc,
  length d = length acc -> Forall Lane.is_int16 acc ->
  Forall (fun s => s = 0) d ->
  zip_with (mix_lane vol) d acc = acc.
Proof.
  induction d as [|s d IH]; intros [|a acc] Hlen Hacc Hd; try done.
  apply Forall_cons in Hacc as [Ha Hacc]. apply Forall_cons in Hd as [-> Hd].
  simpl. rewrite IH by (simpl in Hlen; done || lia).
  unfold mix_lane. rewrite scaled_lane_zero_sample.
  by rewrite sat16_id by done.
Qed.

Lemma mixed_zero_source out data lvol rvol :
  (16 <= length out)%nat -> (8 <= length data)%nat ->
  Forall Lane.is_int16 out -> Forall (fun s => s = 0) (take 8 data) ->
  mixed out data lvol rvol = out.
Proof.
  intros Ho Hd Hout Hz. unfold mixed, mix_block.
  assert (length (take 16 out) = (2 * 8)%nat) as H16
    by (rewrite length_take; lia).
  destruct (length_deinterleave 8 _ H16) as [L0 L1].
  destruct (Forall_deinterleave Lane.is_int16 8 (take 16 out)) as [F0 F1];
    [done|by apply Forall_take|].
  rewrite !mix_lanes_zip by (rewrite length_take; lia).
  rewrite !zip_mix_lane_keep; try done;
    try (rewrite length_take; lia).
  rewrite (interleave_deinterleave 8) by done.
  apply take_drop.
Qed.

(** X1.  A source block of zeros leaves an int16 output buffer as it was,
    whatever the two volumes are. *)
Theorem zero_source_preserving out data lvol rvol len :
  (16 <= length out)%nat -> (8 <= length data)%nat ->
  Forall Lane.is_int16 out -> Forall (fun s => s = 0) (take 8 data) ->
  call out data lvol rvol len
  = Done tt {| m_out := out; m_data := data; m_trace := block_trace |}.
Proof.
  intros Ho Hd Hout Hz. rewrite call_done by done.
  by rewrite mixed_zero_source.
Qed.

Lemma zero_source_preserving_witness :
  call [1; -2; 3; -4; 5; -6; 7; -8; 9; -10; 11; -12; 13; -14; 32767; -32768]
    [0; 0; 0; 0; 0; 0; 0; 0; 77] 200 255 8
  = Done tt {| m_out := [1; -2; 3; -4; 5; -6; 7; -8; 9; -10; 11; -12; 13;
                         -14; 32767; -32768];
               m_data := [0; 0; 0; 0; 0; 0; 0; 0; 77];
               m_trace := block_trace |}.
Proof.
  apply zero_source_preserving; [simpl; lia|simpl; lia|by_decide|].
  simpl. repeat constructor.
Defined.

(** X3.  On buffers holding a block, with a sample in [-128, 127] and
    volumes in [0, 255], frame i of the output becomes, per channel, the
    previous sample plus floor(sample * volume / 256), clamped to int16;
    when that sum fits int16 it is stored exactly. *)
Theorem mix_frame_exact out data lvol rvol len i s l r :
  (16 <= length out)%nat -> (8 <= length data)%nat -> (i < 8)%nat ->
  data !! i = Some s ->
  out !! (2 * i)%nat = Some l -> out !! (2 * i + 1)%nat = Some r ->
  Lane.is_int8 s -> Lane.is_uint8 lvol -> Lane.is_uint8 rvol ->
  completes (call out data lvol rvol len) = true
  /\ final_out (call out data lvol rvol len) !! (2 * i)%nat
     = Some (Lane.sat16 (s * lvol / 256 + l))
  /\ final_out (call out data lvol rvol len) !! (2 * i + 1)%nat
     = Some (Lane.sat16 (s * rvol / 256 + r))
  /\ (Lane.is_int16 (s * lvol / 256 + l) ->
      final_out (call out data lvol rvol len) !! (2 * i)%nat
      = Some (s * lvol / 256 + l))
  /\ (Lane.is_int16 (s * rvol / 256 + r) ->
      final_out (call out data lvol rvol len) !! (2 * i + 1)%nat
      = Some (s * rvol / 256 + r)).
Proof.
  intros Ho Hd Hi Hs Hl Hr Hs8 Hlv Hrv.
  destruct (final_out_call out data lvol rvol len) as [-> ->]; try done.
  destruct (mixed_frame_div out data lvol rvol i s l r) as [H0 H1];
    try done.
  split_and!; try done.
  - intros Hfit. by rewrite H0, sat16_id.
  - intros Hfit. by rewrite H1, sat16_id.
Qed.

Lemma mix_frame_exact_witness :
  completes (call (replicate 16 1000) [100; -128; 127; 0; -1; 1; 64; -64]
               128 255 8) = true
  /\ final_out (call (replicate 16 1000) [100; -128; 127; 0; -1; 1; 64; -64]
                  128 255 8) !! (2 * 1)%nat
     = Some (Lane.sat16 (-128 * 128 / 256 + 1000))
  /\ final_out (call (replicate 16 1000) [100; -128; 127; 0; -1; 1; 64; -64]
                  128 255 8) !! (2 * 1 + 1)%nat
     = Some (Lane.sat16 (-128 * 255 / 256 + 1000))
  /\ (Lane.is_int16 (-128 * 128 / 256 + 1000) ->
      final_out (call (replicate 16 1000)
                   [100; -128; 127; 0; -1; 1; 64; -64] 128 255 8)
        !! (2 * 1)%nat
      = Some (-128 * 128 / 256 + 1000))
  /\ (Lane.is_int16 (-128 * 255 / 256 + 1000) ->
      final_out (call (replicate 16 1000)
                   [100; -128; 127; 0; -1; 1; 64; -64] 128 255 8)
        !! (2 * 1 + 1)%nat
      = Some (-128 * 255 / 256 + 1000)).
Proof.
  apply mix_frame_exact; try reflexivity; try (simpl; lia);
    unfold Lane.is_int8, Lane.is_uint8; lia.
Defined.

(** X4.  A call never amplifies and never inverts: with int16 samples in
    the frame, a non-negative source sample s raises each channel by at most
    s, and a non-positive one lowers each channel by at most -s. *)
Theorem mix_frame_bounded_step out data lvol rvol len i s l r :
  (16 <= length out)%nat -> (8 <= length data)%nat -> (i < 8)%nat ->
  data !! i = Some s ->
  out !! (2 * i)%nat = Some l -> out !! (2 * i + 1)%nat = Some r ->
  Lane.is_int8 s -> Lane.is_uint8 lvol -> Lane.is_uint8 rvol ->
  Lane.is_int16 l -> Lane.is_int16 r ->
  exists l' r',
    final_out (call out data lvol rvol len) !! (2 * i)%nat = Some l'
    /\ final_out (call out data lvol rvol len) !! (2 * i + 1)%nat = Some r'
    /\ (0 <= s -> l <= l' <= l + s /\ r <= r' <= r + s)
    /\ (s <= 0 -> l + s <= l' <= l /\ r + s <= r' <= r).
Proof.
  intros Ho Hd Hi Hs Hl Hr Hs8 Hlv Hrv Hl16 Hr16.
  destruct (final_out_call out data lvol rvol len) as [-> _]; try done.
  destruct (mixed_frame out data lvol rvol i s l r) as [H0 H1]; try done.
  exists (mix_lane lvol s l), (mix_lane rvol s r).
  split_and!; try done; intros Hsign; unfold mix_lane.
  - pose proof (scaled_lane_nonneg s lvol Hs8 Hlv Hsign).
    pose proof (scaled_lane_nonneg s rvol Hs8 Hrv Hsign).
    pose proof (sat16_step_up (scaled_lane lvol s) l Hl16).
    pose proof (sat16_step_up (scaled_lane rvol s) r Hr16). lia.
  - pose proof (scaled_lane_nonpos s lvol Hs8 Hlv Hsign).
    pose proof (scaled_lane_nonpos s rvol Hs8 Hrv Hsign).
    pose proof (sat16_step_down (scaled_lane lvol s) l Hl16).
    pose proof (sat16_step_down (scaled_lane rvol s) r Hr16). lia.
Qed.

Lemma mix_frame_bounded_step_witness :
  exists l' r',
    final_out (call (replicate 16 32700) [100; -128; 127; 0; -1; 1; 64; -64]
                 255 17 8) !! (2 * 2)%nat = Some l'
    /\ final_out (call (replicate 16 32700)
                    [100; -128; 127; 0; -1; 1; 64; -64] 255 17 8)
         !! (2 * 2 + 1)%nat = Some r'
    /\ (0 <= 127 -> 32700 <= l' <= 32700 + 127 /\ 32700 <= r' <= 32700 + 127)
    /\ (127 <= 0 -> 32700 + 127 <= l' <= 32700 /\ 32700 + 127 <= r' <= 32700).
Proof.
  apply mix_frame_bounded_step; try reflexivity; try (simpl; lia);
    unfold Lane.is_int8, Lane.is_uint8, Lane.is_int16,
      Lane.INT16_MIN, Lane.INT16_MAX; lia.
Defined.

(** X5.  The top volume 255 is not unity gain: at volume 255 a positive
    sample s contributes s - 1, while a zero or negative sample contributes
    s itself. *)
Theorem full_volume_contribution out data len i s l r :
  (16 <= length out)%nat -> (8 <= length data)%nat -> (i < 8)%nat ->
  data !! i = Some s ->
  out !! (2 * i)%nat = Some l -> out !! (2 * i + 1)%nat = Some r ->
  Lane.is_int8 s ->
  final_out (call out data 255 255 len) !! (2 * i)%nat
  = Some (Lane.sat16 ((if 0 <? s then s - 1 else s) + l))
  /\ final_out (call out data 255 255 len) !! (2 * i + 1)%nat
     = Some (Lane.sat16 ((if 0 <? s then s - 1 else s) + r)).
Proof.
  intros Ho Hd Hi Hs Hl Hr Hs8.
  destruct (final_out_call out data 255 255 len) as [-> _]; try done.
  destruct (mixed_frame out data 255 255 i s l r) as [H0 H1]; try done.
  unfold mix_lane in H0, H1.
  by rewrite scaled_lane_full_volume in H0, H1 by done.
Qed.

Lemma full_volume_contribution_witness :
  final_out (call (replicate 16 0) [100; -128; 127; 0; -1; 1; 64; -64]
               255 255 8) !! (2 * 0)%nat
  = Some (Lane.sat16 ((if 0 <? 100 then 100 - 1 else 100) + 0))
  /\ final_out (call (replicate 16 0) [100; -128; 127; 0; -1; 1; 64; -64]
                  255 255 8) !! (2 * 0 + 1)%nat
     = Some (Lane.sat16 ((if 0 <? 100 then 100 - 1 else 100) + 0)).
Proof.
  apply full_volume_contribution; try reflexivity; try (simpl; lia).
  unfold Lane.is_int8. lia.
Defined.

(** The frame of a second complete call made on the output of a first. *)
Lemma mixed_mixed_frame out d1 d2 lv1 rv1 lv2 rv2 i s1 s2 l r :
  (16 <= length out)%nat -> (8 <= length d1)%nat -> (i < 8)%nat ->
  d1 !! i = Some s1 -> d2 !! i = Some s2 ->
  out !! (2 * i)%nat = Some l -> out !! (2 * i + 1)%nat = Some r ->
  mixed (mixed out d1 lv1 rv1) d2 lv2 rv2 !! (2 * i)%nat
  = Some (mix_lane lv2 s2 (mix_lane lv1 s1 l))
  /\ mixed (mixed out d1 lv1 rv1) d2 lv2 rv2 !! (2 * i + 1)%nat
     = Some (mix_lane rv2 s2 (mix_lane rv1 s1 r)).
Proof.
  intros Ho Hd Hi Hs1 Hs2 Hl Hr.
  destruct (mixed_frame out d1 lv1 rv1 i s1 l r) as [H0 H1]; try done.
  by apply mixed_frame.
Qed.

(** X6.  The channels do not leak into each other: on buffers holding a
    block, the left (even-index) samples after a call are the same whatever
    the right volume is, and the right (odd-index) samples are the same
    whatever the left volume is. *)
Theorem channels_independent out data lvol rvol lvol' rvol' len i :
  (16 <= length out)%nat -> (8 <= length data)%nat -> (i < 8)%nat ->
  final_out (call out data lvol rvol len) !! (2 * i)%nat
  = final_out (call out data lvol rvol' len) !! (2 * i)%nat
  /\ final_out (call out data lvol rvol len) !! (2 * i + 1)%nat
     = final_out (call out data lvol' rvol len) !! (2 * i + 1)%nat.
Proof.
  intros Ho Hd Hi.
  destruct (lookup_lt_is_Some_2 data i) as [s Hs]; [lia|].
  destruct (lookup_lt_is_Some_2 out (2 * i)) as [l Hl]; [lia|].
  destruct (lookup_lt_is_Some_2 out (2 * i + 1)) as [r Hr]; [lia|].
  destruct (final_out_call out data lvol rvol len) as [-> _]; try done.
  destruct (final_out_call out data lvol rvol' len) as [-> _]; try done.
  destruct (final_out_call out data lvol' rvol len) as [-> _]; try done.
  destruct (mixed_frame out data lvol rvol i s l r) as [H0 H1]; try done.
  destruct (mixed_frame out data lvol rvol' i s l r) as [H0' _]; try done.
  destruct (mixed_frame out data lvol' rvol i s l r) as [_ H1']; try done.
  by rewrite H0, H0', H1, H1'.
Qed.

Lemma channels_independent_witness :
  final_out (call (replicate 16 1000) [100; -128; 127; 0; -1; 1; 64; -64]
               128 255 8) !! (2 * 3)%nat
  = final_out (call (replicate 16 1000) [100; -128; 127; 0; -1; 1; 64; -64]
                 128 3 8) !! (2 * 3)%nat
  /\ final_out (call (replicate 16 1000) [100; -128; 127; 0; -1; 1; 64; -64]
                  128 255 8) !! (2 * 3 + 1)%nat
     = final_out (call (replicate 16 1000)
                    [100; -128; 127; 0; -1; 1; 64; -64] 9 255 8)
         !! (2 * 3 + 1)%nat.
Proof. apply channels_independent; simpl; lia. Defined.

(** X7.  The mix is additive, not idempotent: a second call with the same
    source and volumes, made on the output of the first, completes and adds
    the contribution a second time, saturating each time; when the previous
    sample plus twice the contribution fits int16, that is what is stored. *)
Theorem mixing_twice_adds_twice out data lvol rvol len i s l r :
  (16 <= length out)%nat -> (8 <= length data)%nat -> (i < 8)%nat ->
  data !! i = Some s ->
  out !! (2 * i)%nat = Some l -> out !! (2 * i + 1)%nat = Some r ->
  Lane.is_int8 s -> Lane.is_uint8 lvol -> Lane.is_uint8 rvol ->
  completes (call (final_out (call out data lvol rvol len))
               data lvol rvol len) = true
  /\ final_out (call (final_out (call out data lvol rvol len))
                  data lvol rvol len) !! (2 * i)%nat
     = Some (Lane.sat16 (s * lvol / 256 + Lane.sat16 (s * lvol / 256 + l)))
  /\ final_out (call (final_out (call out data lvol rvol len))
                  data lvol rvol len) !! (2 * i + 1)%nat
     = Some (Lane.sat16 (s * rvol / 256 + Lane.sat16 (s * rvol / 256 + r)))
  /\ (Lane.is_int16 l -> Lane.is_int16 (l + 2 * (s * lvol / 256)) ->
      final_out (call (final_out (call out data lvol rvol len))
                   data lvol rvol len) !! (2 * i)%nat
      = Some (l + 2 * (s * lvol / 256))).
Proof.
  intros Ho Hd Hi Hs Hl Hr Hs8 Hlv Hrv.
  destruct (final_out_call out data lvol rvol len) as [-> _]; try done.
  destruct (final_out_call (mixed out data lvol rvol) data lvol rvol len)
    as [-> ->]; try done; [by rewrite length_mixed|].
  destruct (mixed_mixed_frame out data data lvol rvol lvol rvol i s s l r)
    as [H0 H1]; try done.
  unfold mix_lane in H0, H1. rewrite !scaled_lane_div in H0, H1 by done.
  split_and!; try done.
  intros Hl16 Hfit. by rewrite H0, sat16_twice_exact.
Qed.

Lemma mixing_twice_adds_twice_witness :
  completes (call (final_out (call (replicate 16 1000)
                                [100; -128; 127; 0; -1; 1; 64; -64]
                                128 255 8))
               [100; -128; 127; 0; -1; 1; 64; -64] 128 255 8) = true
  /\ final_out (call (final_out (call (replicate 16 1000)
                                   [100; -128; 127; 0; -1; 1; 64; -64]
                                   128 255 8))
                  [100; -128; 127; 0; -1; 1; 64; -64] 128 255 8)
       !! (2 * 0)%nat
     = Some (Lane.sat16 (100 * 128 / 256 + Lane.sat16 (100 * 128 / 256 + 1000)))
  /\ final_out (call (final_out (call (replicate 16 1000)
                                   [100; -128; 127; 0; -1; 1; 64; -64]
                                   128 255 8))
                  [100; -128; 127; 0; -1; 1; 64; -64] 128 255 8)
       !! (2 * 0 + 1)%nat
     = Some (Lane.sat16 (100 * 255 / 256 + Lane.sat16 (100 * 255 / 256 + 1000)))
  /\ (Lane.is_int16 1000 -> Lane.is_int16 (1000 + 2 * (100 * 128 / 256)) ->
      final_out (call (final_out (call (replicate 16 1000)
                                    [100; -128; 127; 0; -1; 1; 64; -64]
                                    128 255 8))
                   [100; -128; 127; 0; -1; 1; 64; -64] 128 255 8)
        !! (2 * 0)%nat
      = Some (1000 + 2 * (100 * 128 / 256))).
Proof.
  apply mixing_twice_adds_twice; try reflexivity; try (simpl; lia);
    unfold Lane.is_int8, Lane.is_uint8; lia.
Defined.

(** X8.  Mixing two sources one after the other into an int16 output: in a
    frame where the two source samples have the same sign, the order of the
    two calls does not matter for either channel. *)
Theorem mix_order_same_sign out d1 d2 lv1 rv1 lv2 rv2 len1 len2 i s1 s2 :
  (16 <= length out)%nat -> (8 <= length d1)%nat -> (8 <= length d2)%nat ->
  (i < 8)%nat -> Forall Lane.is_int16 out ->
  d1 !! i = Some s1 -> d2 !! i = Some s2 ->
  Lane.is_int8 s1 -> Lane.is_int8 s2 ->
  Lane.is_uint8 lv1 -> Lane.is_uint8 rv1 ->
  Lane.is_uint8 lv2 -> Lane.is_uint8 rv2 ->
  (0 <= s1 /\ 0 <= s2) \/ (s1 <= 0 /\ s2 <= 0) ->
  final_out (call (final_out (call out d1 lv1 rv1 len1)) d2 lv2 rv2 len2)
    !! (2 * i)%nat
  = final_out (call (final_out (call out d2 lv2 rv2 len2)) d1 lv1 rv1 len1)
      !! (2 * i)%nat
  /\ final_out (call (final_out (call out d1 lv1 rv1 len1)) d2 lv2 rv2 len2)
       !! (2 * i + 1)%nat
     = final_out (call (final_out (call out d2 lv2 rv2 len2)) d1 lv1 rv1 len1)
         !! (2 * i + 1)%nat.
Proof.
  intros Ho Hd1 Hd2 Hi Hout Hs1 Hs2 H1 H2 Hlv1 Hrv1 Hlv2 Hrv2 Hsign.
  destruct (lookup_lt_is_Some_2 out (2 * i)) as [l Hl]; [lia|].
  destruct (lookup_lt_is_Some_2 out (2 * i + 1)) as [r Hr]; [lia|].
  pose proof (Forall_lookup_1 _ _ _ _ Hout Hl) as Hl16.
  pose proof (Forall_lookup_1 _ _ _ _ Hout Hr) as Hr16.
  destruct (final_out_call out d1 lv1 rv1 len1) as [-> _]; try done.
  destruct (final_out_call out d2 lv2 rv2 len2) as [-> _]; try done.
  destruct (final_out_call (mixed out d1 lv1 rv1) d2 lv2 rv2 len2)
    as [-> _]; try done; [by rewrite length_mixed|].
  destruct (final_out_call (mixed out d2 lv2 rv2) d1 lv1 rv1 len1)
    as [-> _]; try done; [by rewrite length_mixed|].
  destruct (mixed_mixed_frame out d1 d2 lv1 rv1 lv2 rv2 i s1 s2 l r)
    as [A0 A1]; try done.
  destruct (mixed_mixed_frame out d2 d1 lv2 rv2 lv1 rv1 i s2 s1 l r)
    as [B0 B1]; try done.
  rewrite A0, A1, B0, B1. unfold mix_lane.
  assert (forall v1 v2, Lane.is_uint8 v1 -> Lane.is_uint8 v2 ->
            (0 <= scaled_lane v1 s1 /\ 0 <= scaled_lane v2 s2)
            \/ (scaled_lane v1 s1 <= 0 /\ scaled_lane v2 s2 <= 0)) as Hc.
  { intros v1 v2 Hv1 Hv2. destruct Hsign as [[P1 P2]|[N1 N2]].
    - left. split; by apply scaled_lane_nonneg.
    - right. split; by apply scaled_lane_nonpos. }
  split; f_equal; by apply sat16_swap_same_sign, Hc.
Qed.

Lemma mix_order_same_sign_witness :
  final_out (call (final_out (call (replicate 16 32700)
                                [100; -128; 127; 0; -1; 1; 64; -64]
                                255 255 8))
               [90; -3; 5; 0; -1; 1; 64; -64] 200 100 8) !! (2 * 0)%nat
  = final_out (call (final_out (call (replicate 16 32700)
                                  [90; -3; 5; 0; -1; 1; 64; -64] 200 100 8))
                 [100; -128; 127; 0; -1; 1; 64; -64] 255 255 8)
      !! (2 * 0)%nat
  /\ final_out (call (final_out (call (replicate 16 32700)
                                   [100; -128; 127; 0; -1; 1; 64; -64]
                                   255 255 8))
                  [90; -3; 5; 0; -1; 1; 64; -64] 200 100 8)
       !! (2 * 0 + 1)%nat
     = final_out (call (final_out (call (replicate 16 32700)
                                     [90; -3; 5; 0; -1; 1; 64; -64]
                                     200 100 8))
                    [100; -128; 127; 0; -1; 1; 64; -64] 255 255 8)
         !! (2 * 0 + 1)%nat.
Proof.
  apply (mix_order_same_sign _ _ _ _ _ _ _ _ _ _ 100 90);
    try reflexivity; try (simpl; lia); try by_decide;
    try (unfold Lane.is_int8, Lane.is_uint8; lia).
Defined.

(** X9.  A louder volume never gives a quieter result: raising a channel's
    volume does not lower that channel's output sample when the source
    sample is non-negative, and does not raise it when the source sample is
    non-positive. *)
Theorem louder_volume_monotone out data lvol lvol' rvol len i s :
  (16 <= length out)%nat -> (8 <= length data)%nat -> (i < 8)%nat ->
  data !! i = Some s -> Lane.is_int8 s ->
  Lane.is_uint8 lvol -> Lane.is_uint8 lvol' -> lvol <= lvol' ->
  exists a b,
    final_out (call out data lvol rvol len) !! (2 * i)%nat = Some a
    /\ final_out (call out data lvol' rvol len) !! (2 * i)%nat = Some b
    /\ (0 <= s -> a <= b)
    /\ (s <= 0 -> b <= a).
Proof.
  intros Ho Hd Hi Hs Hs8 Hv Hv' Hle.
  destruct (lookup_lt_is_Some_2 out (2 * i)) as [l Hl]; [lia|].
  destruct (lookup_lt_is_Some_2 out (2 * i + 1)) as [r Hr]; [lia|].
  destruct (final_out_call out data lvol rvol len) as [-> _]; try done.
  destruct (final_out_call out data lvol' rvol len) as [-> _]; try done.
  destruct (mixed_frame out data lvol rvol i s l r) as [H0 _]; try done.
  destruct (mixed_frame out data lvol' rvol i s l r) as [H0' _]; try done.
  exists (mix_lane lvol s l), (mix_lane lvol' s l).
  destruct (scaled_lane_mono_volume s lvol lvol') as [Hup Hdown]; try done.
  split_and!; try done; intros Hsign; unfold mix_lane; apply sat16_mono.
  - specialize (Hup Hsign). lia.
  - specialize (Hdown Hsign). lia.
Qed.

Lemma louder_volume_monotone_witness :
  exists a b,
    final_out (call (replicate 16 1000) [100; -128; 127; 0; -1; 1; 64; -64]
                 17 255 8) !! (2 * 1)%nat = Some a
    /\ final_out (call (replicate 16 1000)
                    [100; -128; 127; 0; -1; 1; 64; -64] 200 255 8)
         !! (2 * 1)%nat = Some b
    /\ (0 <= -128 -> a <= b)
    /\ (-128 <= 0 -> b <= a).
Proof.
  apply louder_volume_monotone; try reflexivity; try (simpl; lia);
    unfold Lane.is_int8, Lane.is_uint8; lia.
Defined.
